(** * Kiosk control server: device registry, command routing, staleness sweep

    A shallow embedding of [server.js] (the socket.io handlers, the REST
    handlers that read or write [activeTablets], and the five-minute sweep)
    and of the two persistence methods of [database-postgres.js] that the
    server calls ([updateTablet], [logCommand]).

    Conventions of the embedding:
    - a JavaScript value is a [JsVal]; a property that an object lacks reads
      as [JUndefined], exactly as [data.tabletId] does in the source;
    - [activeTablets] and [io.sockets.sockets] are JavaScript [Map]s: they are
      kept as association lists in insertion order ([JsMap]);
    - an instant is a number of milliseconds since the epoch ([Z]).  The
      source stores [new Date().toISOString()] and reads it back with
      [new Date(tablet.lastSeen)]; both are exact to the millisecond, so the
      string is represented by the instant it denotes;
    - a handler runs to completion or throws; it is a computation in the
      monad [M], which threads the server state, collects, in program order,
      what the handler sends, logs and asks of the database, and stops at the
      first exception.  A message may carry any value as its payload, also
      none ([undefined]) or [null]: reading a property of those throws.

    The routes that never touch [activeTablets] ([/api/logs], the dashboard
    page, the error and 404 middleware) and the process signal handlers are
    left out. *)

From Stdlib Require Import List String Ascii ZArith Bool Lia.
Import ListNotations.
Open Scope string_scope.
Open Scope Z_scope.
Open Scope list_scope.

Set Warnings "-register-all".

(** ** JavaScript values *)

Inductive JsVal : Type :=
| JUndefined
| JNull
| JBool (b : bool)
| JNum (n : Z)
| JStr (s : string)
| JObj (fields : list (string * JsVal))
| JArr (items : list JsVal).

(** A payload ([data], [req.body]) is an object received from the peer; the
    handlers read its properties and nothing else of it. *)
Definition JsObject : Type := list (string * JsVal).

(** [o.k]: the value of property [k], [undefined] when [o] has none. *)
Fixpoint prop (o : JsObject) (k : string) : JsVal :=
  match o with
  | [] => JUndefined
  | (k', v) :: rest => if String.eqb k' k then v else prop rest k
  end.

(** The properties that a handler can read of a payload.  Reading a property
    of [undefined] or [null] throws a [TypeError]: that is [None].  A boolean,
    a number, a string or an array has none of the properties the server
    reads ([tabletId], [name], [ip], [currentUrl], [uptime], [stats],
    [command], [params], [success], [message]): each reads as [undefined]. *)
Definition fields (data : JsVal) : option JsObject :=
  match data with
  | JUndefined | JNull => None
  | JObj o => Some o
  | JBool _ | JNum _ | JStr _ | JArr _ => Some []
  end.

(** ToBoolean.  Numbers that reach the server are decoded from JSON, so NaN
    does not occur; the falsy number is zero. *)
Definition truthy (v : JsVal) : bool :=
  match v with
  | JUndefined | JNull => false
  | JBool b => b
  | JNum n => negb (n =? 0)
  | JStr s => negb (String.eqb s "")
  | JObj _ | JArr _ => true
  end.

(** [a || b] *)
Definition js_or (a b : JsVal) : JsVal := if truthy a then a else b.

(** [a === b].  Objects and arrays compare by reference; the two sides of
    every comparison in the server come from different messages, hence are
    different references. *)
Definition strict_eq (a b : JsVal) : bool :=
  match a, b with
  | JUndefined, JUndefined => true
  | JNull, JNull => true
  | JBool x, JBool y => Bool.eqb x y
  | JNum x, JNum y => x =? y
  | JStr x, JStr y => String.eqb x y
  | _, _ => false
  end.

(** ** JavaScript [Map] with string keys, in insertion order *)

Module JsMap.
Section WithValues.
Context {V : Type}.

Definition t : Type := list (string * V).

Definition empty : t := [].

Fixpoint get (k : string) (m : t) : option V :=
  match m with
  | [] => None
  | (k', v) :: rest => if String.eqb k' k then Some v else get k rest
  end.

Definition has (k : string) (m : t) : bool :=
  match get k m with Some _ => true | None => false end.

(** [m.set(k, v)]: an existing key keeps its place, a new key goes last. *)
Fixpoint set (k : string) (v : V) (m : t) : t :=
  match m with
  | [] => [(k, v)]
  | (k', v') :: rest =>
      if String.eqb k' k then (k', v) :: rest else (k', v') :: set k v rest
  end.

Definition delete (k : string) (m : t) : t :=
  filter (fun e => negb (String.eqb (fst e) k)) m.

Definition keys (m : t) : list string := map fst m.
Definition values (m : t) : list V := map snd m.
Definition entries (m : t) : list (string * V) := m.
Definition size (m : t) : nat := List.length m.

(** A [Map] holds one entry per key. *)
Definition wf (m : t) : Prop := NoDup (keys m).
End WithValues.
Arguments t : clear implicits.
End JsMap.

(** ** Records of the server *)

(** [status] is one of the two string constants ['online'] and ['offline']. *)
Inductive Status : Type := online | offline.

Definition status_eqb (a b : Status) : bool :=
  match a, b with
  | online, online | offline, offline => true
  | _, _ => false
  end.

(** [tabletInfo], the object kept in [activeTablets].  Every field but
    [status] and [lastSeen] comes from [payload || default], hence is any
    truthy value or the default. *)
Record TabletInfo : Type := mkTablet {
  id : JsVal;
  name : JsVal;
  ip : JsVal;
  status : Status;
  currentUrl : JsVal;
  lastSeen : Z;
  uptime : JsVal;
  stats : JsVal
}.

Definition with_status (v : Status) (t : TabletInfo) : TabletInfo :=
  mkTablet (id t) (name t) (ip t) v (currentUrl t) (lastSeen t) (uptime t) (stats t).
Definition with_currentUrl (v : JsVal) (t : TabletInfo) : TabletInfo :=
  mkTablet (id t) (name t) (ip t) (status t) v (lastSeen t) (uptime t) (stats t).
Definition with_lastSeen (v : Z) (t : TabletInfo) : TabletInfo :=
  mkTablet (id t) (name t) (ip t) (status t) (currentUrl t) v (uptime t) (stats t).
Definition with_uptime (v : JsVal) (t : TabletInfo) : TabletInfo :=
  mkTablet (id t) (name t) (ip t) (status t) (currentUrl t) (lastSeen t) v (stats t).
Definition with_stats (v : JsVal) (t : TabletInfo) : TabletInfo :=
  mkTablet (id t) (name t) (ip t) (status t) (currentUrl t) (lastSeen t) (uptime t) v.

(** The argument of [db.logCommand]. *)
Record CommandInfo : Type := mkCommand {
  tabletId : JsVal;
  command : JsVal;
  params : JsVal;
  timestamp : Z;
  sourceIp : JsVal
}.

(** A connection: [socket.id] and [socket.handshake.address]. *)
Record Socket : Type := mkSocket {
  socket_id : string;
  handshake_address : string
}.

(** ** database-postgres.js: the two methods the server calls *)

Module Database.

(** The value a failed query rejects with; the methods read [err.message]. *)
Record JsError : Type := mkError { message : string }.

(** A settled promise. *)
Inductive Settled (A : Type) : Type :=
| Fulfilled (a : A)
| Rejected (e : JsError).
Arguments Fulfilled {A} a.
Arguments Rejected {A} e.

(** The statements sent to [this.pool.query], with their parameters. *)
Inductive Query : Type :=
| InsertTablet (id name ip : JsVal) (status : Status) (current_url : JsVal)
               (last_seen : Z) (uptime stats_json : JsVal)
| InsertCommandLog (tablet_id command params_json : JsVal) (timestamp : Z)
                   (source_ip : JsVal).

(** How the pool answers.  Both methods ignore the rows of a successful
    answer, so success carries nothing. *)
Definition Pool : Type := Query -> Settled unit.

(** What running an [async] method to its end leaves behind: how its promise
    settles, the queries it sent, and the lines it wrote with
    [console.error]. *)
Record Run (A : Type) : Type := mkRun {
  outcome : Settled A;
  queried : list Query;
  stderr : list (string * string)
}.
Arguments mkRun {A}.
Arguments outcome {A}.
Arguments queried {A}.
Arguments stderr {A}.

Definition Async (A : Type) : Type := Pool -> Run A.

Definition ret {A} (a : A) : Async A := fun _ => mkRun (Fulfilled a) [] [].

Definition bind {A B} (m : Async A) (k : A -> Async B) : Async B :=
  fun pool =>
    let r := m pool in
    match outcome r with
    | Fulfilled a =>
        let r' := k a pool in
        mkRun (outcome r') (queried r ++ queried r') (stderr r ++ stderr r')
    | Rejected e => mkRun (Rejected e) (queried r) (stderr r)
    end.

(** [await this.pool.query(q)] *)
Definition pool_query (q : Query) : Async unit :=
  fun pool => mkRun (pool q) [q] [].

(** [console.error(label, text)] *)
Definition console_error (label text : string) : Async unit :=
  fun _ => mkRun (Fulfilled tt) [] [(label, text)].

(** [try { body } catch (err) { handler(err) }] *)
Definition try_catch {A} (body : Async A) (handler : JsError -> Async A)
  : Async A :=
  fun pool =>
    let r := body pool in
    match outcome r with
    | Fulfilled a => r
    | Rejected err =>
        let r' := handler err pool in
        mkRun (outcome r') (queried r ++ queried r') (stderr r ++ stderr r')
    end.

Definition updateTablet (tabletInfo : TabletInfo) : Async unit :=
  let '(mkTablet id name ip status currentUrl lastSeen uptime stats) :=
    tabletInfo in
  try_catch
    (pool_query
       (InsertTablet id name ip status currentUrl lastSeen uptime stats))
    (fun err => console_error "❌ Error actualizando tablet:" (message err)).

Definition logCommand (commandInfo : CommandInfo) : Async unit :=
  let '(mkCommand tabletId command params timestamp sourceIp) :=
    commandInfo in
  try_catch
    (pool_query (InsertCommandLog tabletId command params timestamp sourceIp))
    (fun err => console_error "❌ Error logging comando:" (message err)).

End Database.

(** ** server.js: state, effects and the handler monad *)

(** The two maps the handlers read and write: [io.sockets.sockets] (the open
    connections) and [activeTablets]. *)
Record World : Type := mkWorld {
  sockets : JsMap.t Socket;
  activeTablets : JsMap.t TabletInfo
}.

(** The server as [server.js] leaves it before the first connection. *)
Definition initial : World := mkWorld JsMap.empty JsMap.empty.

(** What is sent with [emit]. *)
Inductive Payload : Type :=
| PTablet (tablet : TabletInfo)
| PRemoteCommand (command params : JsVal)
| PCommandError (error : string) (tabletId : JsVal)
| PCommandResult (tabletId command success message : JsVal) (timestamp : Z).

(** The body of a JSON response, next to its [success] flag. *)
Inductive Body : Type :=
| BTablets (count : nat) (tablets : list TabletInfo)
| BTablet (tablet : TabletInfo)
| BCommandSent (command : JsVal) (tabletId : string)
| BError (error : string)
| BStats (totalTablets onlineTablets : nat) (serverUptime : JsVal)
         (timestamp : Z).

(** What a handler does to the outside, in program order. *)
Inductive Effect : Type :=
| ConsoleLog (template : string) (args : list JsVal)
| DbUpdateTablet (tabletInfo : TabletInfo)        (* db.updateTablet(...), not awaited *)
| DbLogCommand (commandInfo : CommandInfo)        (* db.logCommand(...), not awaited *)
| Emit (target : string) (event : string) (p : Payload)
                                                  (* <socket target>.emit(event, p) *)
| Broadcast (sender : string) (event : string) (p : Payload)
                                                  (* <socket sender>.broadcast.emit(event, p) *)
| Respond (code : Z) (success : bool) (body : Body).
                                                  (* res.status(code).json({success, ...}) *)

(** The exception a handler can throw: a property [property] was read of
    [subject], which is [undefined] or [null]. *)
Inductive JsException : Type :=
| TypeError (subject : JsVal) (property : string).

(** How a computation ends: with a value, or by throwing. *)
Inductive Completion (A : Type) : Type :=
| Normal (a : A)
| Throw (e : JsException).
Arguments Normal {A} a.
Arguments Throw {A} e.

Definition M (A : Type) : Type := World -> Completion A * World * list Effect.

Definition ret {A} (a : A) : M A := fun w => (Normal a, w, []).

(** Sequencing: what follows a throw does not run. *)
Definition bind {A B} (m : M A) (k : A -> M B) : M B :=
  fun w =>
    let '(c, w1, out1) := m w in
    match c with
    | Normal a =>
        let '(b, w2, out2) := k a w1 in
        (b, w2, out1 ++ out2)
    | Throw e => (Throw e, w1, out1)
    end.

Declare Scope handler_scope.
Delimit Scope handler_scope with handler.
Notation "x <- m ;; k" := (bind m (fun x => k))
  (at level 61, m at next level, right associativity) : handler_scope.
Notation "m ;; k" := (bind m (fun _ => k))
  (at level 61, right associativity) : handler_scope.
Open Scope handler_scope.

Definition do (e : Effect) : M unit := fun w => (Normal tt, w, [e]).

Definition get_world : M World := fun w => (Normal w, w, []).

(** [data.k], and the names bound by [const { k, ... } = data]. *)
Definition read (data : JsVal) (k : string) : M JsVal :=
  fun w =>
    match fields data with
    | Some o => (Normal (prop o k), w, [])
    | None => (Throw (TypeError data k), w, [])
    end.

Definition activeTablets_get (k : string) : M (option TabletInfo) :=
  fun w => (Normal (JsMap.get k (activeTablets w)), w, []).

Definition activeTablets_set (k : string) (v : TabletInfo) : M unit :=
  fun w => (Normal tt, mkWorld (sockets w) (JsMap.set k v (activeTablets w)), []).

Definition activeTablets_delete (k : string) : M unit :=
  fun w =>
    (Normal tt, mkWorld (sockets w) (JsMap.delete k (activeTablets w)), []).

(** [tablet.field = value], where [tablet] is the object that [activeTablets]
    holds under [k]: the map sees the assignment.  Each object is bound under
    one key only, the one it was registered with.  The result is the object
    after the assignment, for the handler's local [tablet]. *)
Definition assign (k : string) (tablet : TabletInfo)
           (f : TabletInfo -> TabletInfo) : M TabletInfo :=
  fun w =>
    let m := activeTablets w in
    (Normal (f tablet),
     mkWorld (sockets w) (if JsMap.has k m then JsMap.set k (f tablet) m else m),
     []).

(** [activeTablets.get(k)?.id] *)
Definition optional_id (found : option TabletInfo) : JsVal :=
  match found with
  | Some tablet => id tablet
  | None => JUndefined
  end.

Definition staleThreshold : Z := 5 * 60 * 1000.

(** ** The socket handlers *)

(** [socket.on('tablet-register', data => ...)] *)
Definition tablet_register (socket : Socket) (data : JsVal) (now : Z)
  : M unit :=
  let sid := socket_id socket in
  data_tabletId <- read data "tabletId" ;;
  data_name <- read data "name" ;;
  data_ip <- read data "ip" ;;
  data_currentUrl <- read data "currentUrl" ;;
  data_uptime <- read data "uptime" ;;
  data_stats <- read data "stats" ;;
  let tabletInfo := {|
    id := js_or data_tabletId (JStr sid);
    name := js_or data_name
                  (JStr (String.append "Tablet-" (substring 0 8 sid)));
    ip := js_or data_ip (JStr (handshake_address socket));
    status := online;
    currentUrl := js_or data_currentUrl (JStr "");
    lastSeen := now;
    uptime := js_or data_uptime (JStr "00:00:00");
    stats := js_or data_stats (JObj [])
  |} in
  activeTablets_set sid tabletInfo ;;
  do (DbUpdateTablet tabletInfo) ;;
  do (ConsoleLog "✅ Tablet registrada: ${tabletInfo.name} (${tabletInfo.ip})"
                 [name tabletInfo; ip tabletInfo]) ;;
  do (Broadcast sid "tablet-online" (PTablet tabletInfo)).

(** [socket.on('tablet-status', data => ...)] *)
Definition tablet_status (socket : Socket) (data : JsVal) (now : Z)
  : M unit :=
  let sid := socket_id socket in
  found <- activeTablets_get sid ;;
  match found with
  | None => ret tt
  | Some tablet =>
      data_currentUrl <- read data "currentUrl" ;;
      tablet <- assign sid tablet
        (fun t => with_currentUrl (js_or data_currentUrl (currentUrl t)) t) ;;
      data_uptime <- read data "uptime" ;;
      tablet <- assign sid tablet
        (fun t => with_uptime (js_or data_uptime (uptime t)) t) ;;
      data_stats <- read data "stats" ;;
      tablet <- assign sid tablet
        (fun t => with_stats (js_or data_stats (stats t)) t) ;;
      tablet <- assign sid tablet (with_lastSeen now) ;;
      activeTablets_set sid tablet ;;
      do (DbUpdateTablet tablet) ;;
      do (Broadcast sid "tablet-status-update" (PTablet tablet))
  end.

(** [socket.on('send-command', data => ...)] *)
Definition send_command (socket : Socket) (data : JsVal) (now : Z)
  : M unit :=
  tabletId <- read data "tabletId" ;;
  command <- read data "command" ;;
  params <- read data "params" ;;
  w <- get_world ;;
  let targetSocket :=
    find (fun s => strict_eq
                     (optional_id (JsMap.get (socket_id s) (activeTablets w)))
                     tabletId)
         (JsMap.values (sockets w)) in
  match targetSocket with
  | Some target =>
      do (Emit (socket_id target) "remote-command"
               (PRemoteCommand command params)) ;;
      do (ConsoleLog "📤 Comando enviado a ${tabletId}: ${command}"
                     [tabletId; command]) ;;
      do (DbLogCommand {|
            tabletId := tabletId;
            command := command;
            params := params;
            timestamp := now;
            sourceIp := JStr (handshake_address socket) |})
  | None =>
      do (Emit (socket_id socket) "command-error"
               (PCommandError "Tablet no encontrada o desconectada" tabletId))
  end.

(** [socket.on('command-executed', data => ...)] *)
Definition command_executed (socket : Socket) (data : JsVal) (now : Z)
  : M unit :=
  let sid := socket_id socket in
  command <- read data "command" ;;
  success <- read data "success" ;;
  message <- read data "message" ;;
  found <- activeTablets_get sid ;;
  do (Broadcast sid "command-result"
        (PCommandResult (optional_id found) command success message now)).

(** The two assignments under the comment "Marcar como offline" of the
    ['disconnect'] handler: [tablet.status = 'offline'] and
    [tablet.lastSeen = new Date().toISOString()]. *)
Definition mark_offline (sid : string) (tablet : TabletInfo) (now : Z)
  : M TabletInfo :=
  tablet <- assign sid tablet (with_status offline) ;;
  assign sid tablet (with_lastSeen now).

(** [socket.on('disconnect', () => ...)] *)
Definition disconnect (socket : Socket) (now : Z) : M unit :=
  let sid := socket_id socket in
  found <- activeTablets_get sid ;;
  match found with
  | None => ret tt
  | Some tablet =>
      do (ConsoleLog "📱 Tablet desconectada: ${tablet.name}" [name tablet]) ;;
      tablet <- mark_offline sid tablet now ;;
      do (DbUpdateTablet tablet) ;;
      activeTablets_delete sid ;;
      do (Broadcast sid "tablet-offline" (PTablet tablet))
  end.

(** ** The sweep of [setInterval] *)

(** The body of [for (const [socketId, tablet] of activeTablets.entries())].
    The loop deletes no entry but the one it is visiting, so the iterator
    yields the entries the map had when the loop began, each still as the
    map holds it. *)
Fixpoint sweep_loop (fiveMinutesAgo : Z) (entries : list (string * TabletInfo))
  : M unit :=
  match entries with
  | [] => ret tt
  | (socketId, tablet) :: rest =>
      (if lastSeen tablet <? fiveMinutesAgo then
         do (ConsoleLog "🧹 Limpiando tablet inactiva: ${tablet.name}"
                        [name tablet]) ;;
         tablet <- assign socketId tablet (with_status offline) ;;
         do (DbUpdateTablet tablet) ;;
         activeTablets_delete socketId
       else ret tt) ;;
      sweep_loop fiveMinutesAgo rest
  end.

Definition sweep (now : Z) : M unit :=
  let fiveMinutesAgo := now - staleThreshold in
  w <- get_world ;;
  sweep_loop fiveMinutesAgo (JsMap.entries (activeTablets w)).

(** ** The REST handlers over [activeTablets] *)

(** [app.get('/api/tablets', ...)] *)
Definition api_tablets : M unit :=
  w <- get_world ;;
  let tablets := JsMap.values (activeTablets w) in
  do (Respond 200 true (BTablets (List.length tablets) tablets)).

(** [app.get('/api/tablet/:id', ...)] *)
Definition api_tablet (tabletId : string) : M unit :=
  w <- get_world ;;
  match find (fun t => strict_eq (id t) (JStr tabletId))
             (JsMap.values (activeTablets w)) with
  | Some tablet => do (Respond 200 true (BTablet tablet))
  | None => do (Respond 404 false (BError "Tablet no encontrada"))
  end.

(** [app.post('/api/command/:tabletId', ...)]; [tabletId] is a path segment,
    hence a string. *)
Definition api_command (tabletId : string) (body : JsObject) (reqIp : JsVal)
           (now : Z) : M unit :=
  let command := prop body "command" in
  let params := prop body "params" in
  w <- get_world ;;
  let socketId :=
    match find (fun e => strict_eq (id (snd e)) (JStr tabletId))
               (JsMap.entries (activeTablets w)) with
    | Some e => JStr (fst e)
    | None => JUndefined
    end in
  match socketId with
  | JStr k =>
      if truthy socketId then
        match JsMap.get k (sockets w) with
        | Some targetSocket =>
            do (Emit (socket_id targetSocket) "remote-command"
                     (PRemoteCommand command params)) ;;
            do (DbLogCommand {|
                  tabletId := JStr tabletId;
                  command := command;
                  params := params;
                  timestamp := now;
                  sourceIp := reqIp |}) ;;
            do (Respond 200 true (BCommandSent command tabletId))
        | None => do (Respond 404 false (BError "Socket no encontrado"))
        end
      else do (Respond 404 false (BError "Tablet no encontrada"))
  | _ => do (Respond 404 false (BError "Tablet no encontrada"))
  end.

(** [app.get('/api/stats', ...)] *)
Definition api_stats (processUptime : JsVal) (now : Z) : M unit :=
  w <- get_world ;;
  let totalTablets := JsMap.size (activeTablets w) in
  let onlineTablets :=
    List.length (filter (fun t => status_eqb (status t) online)
                        (JsMap.values (activeTablets w))) in
  do (Respond 200 true (BStats totalTablets onlineTablets processUptime now)).

(** ** The event loop *)

(** [io.on('connection', socket => ...)]: the socket joins
    [io.sockets.sockets] and its handlers are installed. *)
Definition connection (socket : Socket) : M unit :=
  (fun w => (Normal tt,
             mkWorld (JsMap.set (socket_id socket) socket (sockets w))
                     (activeTablets w), [])) ;;
  do (ConsoleLog "📱 Nueva conexión: ${socket.id}" [JStr (socket_id socket)]).

(** The transport closes [socket]: socket.io takes it out of
    [io.sockets.sockets], then fires ['disconnect']. *)
Definition closed (socket : Socket) (now : Z) : M unit :=
  (fun w => (Normal tt,
             mkWorld (JsMap.delete (socket_id socket) (sockets w))
                     (activeTablets w), [])) ;;
  disconnect socket now.

(** One turn of the single-threaded event loop.  A message carries the
    payload the peer sent with it, which is any value, also none. *)
Inductive Event : Type :=
| Connection (socket : Socket)
| TabletRegister (socket : Socket) (data : JsVal)
| TabletStatus (socket : Socket) (data : JsVal)
| SendCommand (socket : Socket) (data : JsVal)
| CommandExecuted (socket : Socket) (data : JsVal)
| Closed (socket : Socket)
| ApiTablets
| ApiTablet (tabletId : string)
| ApiCommand (tabletId : string) (body : JsObject) (reqIp : JsVal)
| ApiStats (processUptime : JsVal)
| Sweep.

(** The handler of an event, run at instant [now] (the value that
    [Date.now()] and [new Date()] read during this turn). *)
Definition handler (e : Event) (now : Z) : M unit :=
  match e with
  | Connection socket => connection socket
  | TabletRegister socket data => tablet_register socket data now
  | TabletStatus socket data => tablet_status socket data now
  | SendCommand socket data => send_command socket data now
  | CommandExecuted socket data => command_executed socket data now
  | Closed socket => closed socket now
  | ApiTablets => api_tablets
  | ApiTablet tabletId => api_tablet tabletId
  | ApiCommand tabletId body reqIp => api_command tabletId body reqIp now
  | ApiStats processUptime => api_stats processUptime now
  | Sweep => sweep now
  end.

Definition exec {A} (m : M A) (w : World) : World := snd (fst (m w)).
Definition effects {A} (m : M A) (w : World) : list Effect := snd (m w).
Definition completion {A} (m : M A) (w : World) : Completion A :=
  fst (fst (m w)).

(** The states the server can be in between two handlers. *)
Inductive reachable : World -> Prop :=
| reachable_initial : reachable initial
| reachable_step w e now :
    reachable w -> reachable (exec (handler e now) w).

(** [snapshot()]: the records of the active set. *)
Definition snapshot (w : World) : list TabletInfo :=
  JsMap.values (activeTablets w).

(** ** Reading an effect list *)

Definition is_emission (e : Effect) : bool :=
  match e with
  | Emit _ _ _ | Broadcast _ _ _ => true
  | _ => false
  end.

Definition is_broadcast_of (event : string) (e : Effect) : bool :=
  match e with
  | Broadcast _ ev _ => String.eqb ev event
  | _ => false
  end.

Definition is_db_call (e : Effect) : bool :=
  match e with
  | DbUpdateTablet _ | DbLogCommand _ => true
  | _ => false
  end.

Definition persisted (out : list Effect) : list TabletInfo :=
  flat_map (fun e => match e with DbUpdateTablet t => [t] | _ => [] end) out.

(** The database call behind an effect, run against [pool]. *)
Definition settle (pool : Database.Pool) (e : Effect)
  : option (Database.Run unit) :=
  match e with
  | DbUpdateTablet tabletInfo => Some (Database.updateTablet tabletInfo pool)
  | DbLogCommand commandInfo => Some (Database.logCommand commandInfo pool)
  | _ => None
  end.

(** A whole turn against [pool]: the handler runs to its end, then the
    database calls it started settle.  The handler holds none of their
    promises. *)
Definition turn (pool : Database.Pool) (e : Event) (now : Z) (w : World)
  : World * list Effect * list (Database.Run unit) :=
  let '(_, w', out) := handler e now w in
  (w', out, flat_map (fun eff => match settle pool eff with
                                 | Some r => [r]
                                 | None => []
                                 end) out).

(** ** Vocabulary of the statements *)

(** The record a status message leaves under the handle. *)
Definition merged (data : JsObject) (now : Z) (tablet : TabletInfo)
  : TabletInfo :=
  mkTablet (id tablet) (name tablet) (ip tablet) (status tablet)
           (js_or (prop data "currentUrl") (currentUrl tablet))
           now
           (js_or (prop data "uptime") (uptime tablet))
           (js_or (prop data "stats") (stats tablet)).

(** The record a disconnect hands to the database and to the observers. *)
Definition final_record (now : Z) (tablet : TabletInfo) : TabletInfo :=
  with_lastSeen now (with_status offline tablet).

(** [new Date(tablet.lastSeen) < fiveMinutesAgo] *)
Definition stale (fiveMinutesAgo : Z) (tablet : TabletInfo) : bool :=
  lastSeen tablet <? fiveMinutesAgo.

(** What one iteration of the loop leaves of the map. *)
Definition evict (fiveMinutesAgo : Z) (m : JsMap.t TabletInfo)
           (e : string * TabletInfo) : JsMap.t TabletInfo :=
  if stale fiveMinutesAgo (snd e) then JsMap.delete (fst e) m else m.

(** What one iteration of the loop logs and asks of the database. *)
Definition evict_effects (fiveMinutesAgo : Z) (e : string * TabletInfo)
  : list Effect :=
  if stale fiveMinutesAgo (snd e) then
    [ConsoleLog "🧹 Limpiando tablet inactiva: ${tablet.name}" [name (snd e)];
     DbUpdateTablet (with_status offline (snd e))]
  else [].

(** Between two handlers, [activeTablets] holds one record per connection
    and every record in it is online. *)
Definition registry_ok (w : World) : Prop :=
  JsMap.wf (activeTablets w) /\
  forall k t, In (k, t) (activeTablets w) -> status t = online.

(** No record of [activeTablets] has [logicalId] as its [id]. *)
Definition no_active_binding (logicalId : JsVal) (w : World) : Prop :=
  forall k t, In (k, t) (activeTablets w) -> strict_eq (id t) logicalId = false.

(** ** Example states *)

Definition lobby : Socket := mkSocket "s1AbCdEfGhIjKl" "10.0.0.5".
Definition hall : Socket := mkSocket "s2MnOpQrStUvWx" "10.0.0.6".
Definition dashboard : Socket := mkSocket "o1dashboard" "10.0.0.9".

(** The lobby tablet connects and registers as ["A"] at instant 0; a dashboard
    is connected too. *)
Definition lobby_world : World :=
  exec (handler (TabletRegister lobby
                   (JObj [("tabletId", JStr "A"); ("name", JStr "Lobby");
                          ("currentUrl", JStr "http://a")])) 0)
    (exec (handler (Connection dashboard) 0)
       (exec (handler (Connection lobby) 0) initial)).

(** The lobby and the hall tablets both register at instant 0; only the hall
    tablet reports again, at 299 s. *)
Definition two_tablets : World :=
  exec (handler (TabletStatus hall (JObj [("uptime", JStr "00:04:59")]))
                299000)
    (exec (handler (TabletRegister hall (JObj [("tabletId", JStr "B")])) 0)
       (exec (handler (Connection hall) 0) lobby_world)).

(** A pool that is down. *)
Definition refusing_pool : Database.Pool :=
  fun _ => Database.Rejected (Database.mkError "connect ECONNREFUSED 127.0.0.1:5432").

Definition accepting_pool : Database.Pool :=
  fun _ => Database.Fulfilled tt.

(** ** Runs of the server under socket.io's discipline *)

(** The record that ['tablet-register'] builds from a connection and a
    payload. *)
Definition registered (socket : Socket) (data : JsObject) (now : Z)
  : TabletInfo :=
  {| id := js_or (prop data "tabletId") (JStr (socket_id socket));
     name := js_or (prop data "name")
                   (JStr (String.append "Tablet-"
                                        (substring 0 8 (socket_id socket))));
     ip := js_or (prop data "ip") (JStr (handshake_address socket));
     status := online;
     currentUrl := js_or (prop data "currentUrl") (JStr "");
     lastSeen := now;
     uptime := js_or (prop data "uptime") (JStr "00:00:00");
     stats := js_or (prop data "stats") (JObj []) |}.

(** What socket.io guarantees of the events it delivers: a new connection
    has a fresh, non-empty id; a message or a close comes from a connection
    that is open, since the handlers are installed per connection. *)
Definition admissible (w : World) (e : Event) : Prop :=
  match e with
  | Connection socket =>
      socket_id socket <> "" /\ JsMap.get (socket_id socket) (sockets w) = None
  | TabletRegister socket _ | TabletStatus socket _ | SendCommand socket _
  | CommandExecuted socket _ | Closed socket =>
      JsMap.get (socket_id socket) (sockets w) = Some socket
  | _ => True
  end.

(** [live clock w]: the server is in state [w] after a run of admissible
    events whose instants never go back; [clock] is the instant of the last
    one. *)
Inductive live : Z -> World -> Prop :=
| live_initial clock : live clock initial
| live_step clock w e now :
    live clock w -> admissible w e -> clock <= now ->
    live now (exec (handler e now) w).

(** What holds of the two maps in a live state. *)
Definition connections_ok (clock : Z) (w : World) : Prop :=
  JsMap.wf (sockets w)
  /\ (forall k s, In (k, s) (sockets w) -> socket_id s = k /\ k <> "")
  /\ (forall k t, In (k, t) (activeTablets w) ->
        In k (JsMap.keys (sockets w))
        /\ truthy (id t) = true
        /\ truthy (name t) = true
        /\ lastSeen t <= clock).

(** The events that read the registry without writing it. *)
Definition read_only (e : Event) : bool :=
  match e with
  | TabletRegister _ _ | TabletStatus _ _ | Closed _ | Sweep => false
  | _ => true
  end.

(** The events that can change which handles are bound. *)
Definition rebinds (e : Event) : bool :=
  match e with
  | TabletRegister _ _ | Closed _ | Sweep => true
  | _ => false
  end.

(** The record with [id] [logicalId] that a scan of [activeTablets] in
    iteration order meets first, with its handle. *)
Definition first_binding (logicalId : JsVal) (w : World)
  : option (string * TabletInfo) :=
  find (fun e => strict_eq (id (snd e)) logicalId)
       (JsMap.entries (activeTablets w)).

(** Unfolding the handler monad. *)
Ltac unfold_M :=
  unfold bind, ret, do, get_world, read, activeTablets_get, activeTablets_set,
    activeTablets_delete, assign; cbn [fields].
Ltac unfold_M_in H :=
  unfold bind, ret, do, get_world, read, activeTablets_get, activeTablets_set,
    activeTablets_delete, assign in H; cbn [fields] in H.
Ltac unfold_first_bind := unfold bind at 1.

(** The events that take records out of the registry on their own. *)
Definition takes_offline (e : Event) : bool :=
  match e with
  | Closed _ | Sweep => true
  | _ => false
  end.

(** ** database-postgres.js: the other methods of [Database] *)

(** [{...o, k: v}]: a copy of [o] in which [k] is [v]; an own key keeps its
    place, a new one goes last. *)
Fixpoint with_prop (o : JsObject) (k : string) (v : JsVal) : JsObject :=
  match o with
  | [] => [(k, v)]
  | (k', v') :: rest =>
      if String.eqb k' k then (k', v) :: rest else (k', v') :: with_prop rest k v
  end.

(** The UTC day of an instant, which is what
    [new Date(t).toISOString().split('T')[0]] denotes. *)
Definition utc_day (t : Z) : Z := t / 86400000.

Module DatabaseMethods.

(** The column that [updateDailyStats] interpolates into its statement:
    one of the three of [columnMap], or the text of a member that the
    object literal inherits from [Object.prototype]. *)
Inductive Column : Type :=
| Named (column : string)
| Inherited (member : string).

(** The statements of the class, with their parameters.  The DDL of
    [initTables] is named by the table or index it creates. *)
Inductive Statement : Type :=
| CreateTable (table : string)
| CreateIndex (index : string)
| SelectAllTablets
| SelectTablet (tabletId : JsVal)
| UpdateCommandResult (success response tabletId command : JsVal)
| SelectLogsOf (tabletId limit : JsVal)
| SelectLogs (limit : JsVal)
| InsertActivity (tabletId level message metadata : JsVal)
| SelectStats
| InsertDailyStats (tabletId : JsVal) (today : Z)
| UpdateDailyStats (column : Column) (increment tabletId : JsVal) (today : Z)
| DeleteCommandLogs (before : Z)
| DeleteActivityLogs (before : Z)
| DeleteDailyStats (beforeDay : Z)
| SelectNow
| SelectDatabaseInfo.

(** What a method asks of its surroundings and may fail. *)
Inductive Request : Type :=
| PoolQuery (s : Statement)        (* this.pool.query(...) *)
| PoolConnect                      (* this.pool.connect() *)
| ClientQuery (s : Statement)      (* client.query(...) *)
| PoolEnd                          (* this.pool.end() *)
| Call (arg : JsVal).              (* callback(arg) *)

(** What a method does, in program order. *)
Inductive Step : Type :=
| Asked (r : Request)
| Released                         (* client.release() *)
| Logged (line : string) (args : list JsVal)
                                   (* console.log *)
| Errored (args : list string).    (* console.error *)

Definition Rows : Type := list JsObject.

(** The surroundings: how a request is answered, which may depend on all
    that happened before.  A query answers with its rows; the other requests
    answer with no row. *)
Definition Env : Type := list Step -> Request -> Database.Settled Rows.

(** An [async] method: from the surroundings and the steps so far, how its
    promise settles and the steps extended. *)
Definition Async (A : Type) : Type :=
  Env -> list Step -> Database.Settled A * list Step.

Definition ret {A} (a : A) : Async A :=
  fun _ h => (Database.Fulfilled a, h).

Definition bind {A B} (m : Async A) (k : A -> Async B) : Async B :=
  fun env h =>
    match m env h with
    | (Database.Fulfilled a, h1) => k a env h1
    | (Database.Rejected e, h1) => (Database.Rejected e, h1)
    end.

Declare Scope async_scope.
Notation "x <- m ;; k" := (bind m (fun x => k))
  (at level 61, m at next level, right associativity) : async_scope.
Notation "m ;; k" := (bind m (fun _ => k))
  (at level 61, right associativity) : async_scope.
Local Open Scope async_scope.

(** [await request] *)
Definition ask (r : Request) : Async Rows :=
  fun env h => (env h r, h ++ [Asked r]).

Definition tell (s : Step) : Async unit :=
  fun _ h => (Database.Fulfilled tt, h ++ [s]).

Definition throw {A} (e : Database.JsError) : Async A :=
  fun _ h => (Database.Rejected e, h).

(** [try { body } catch (err) { handler(err) }] *)
Definition try_catch {A} (body : Async A)
           (handler : Database.JsError -> Async A) : Async A :=
  fun env h =>
    match body env h with
    | (Database.Fulfilled a, h1) => (Database.Fulfilled a, h1)
    | (Database.Rejected err, h1) => handler err env h1
    end.

(** The one-character string that holds a double quote. *)
Definition dquote : string := String (Ascii.ascii_of_nat 34) EmptyString.

(** A run of [await client.query(...)] statements, one after the other. *)
Fixpoint client_queries (statements : list Statement) : Async unit :=
  match statements with
  | [] => ret tt
  | s :: rest => ask (ClientQuery s) ;; client_queries rest
  end.

(** The tables and indexes of [initTables], in the order of the source. *)
Definition schema : list Statement :=
  [CreateTable "tablets";
   CreateTable "command_logs";
   CreateTable "daily_stats";
   CreateTable "activity_logs";
   CreateIndex "idx_tablets_status";
   CreateIndex "idx_command_logs_tablet";
   CreateIndex "idx_command_logs_timestamp";
   CreateIndex "idx_daily_stats_date";
   CreateIndex "idx_activity_logs_timestamp"].

Definition initTables : Async unit :=
  try_catch
    (client_queries schema ;;
     tell (Logged "✅ Tablas PostgreSQL inicializadas correctamente" []))
    (fun err => tell (Errored ["❌ Error creando tablas:";
                               Database.message err])).

Definition initConnection : Async unit :=
  try_catch
    (ask PoolConnect ;;
     tell (Logged "✅ Conectado a PostgreSQL - Base: kiosk" []) ;;
     initTables ;;
     tell Released)
    (fun err =>
       tell (Errored ["❌ Error conectando a PostgreSQL:";
                      Database.message err]) ;;
       tell (Errored ["💡 Asegúrate de que:"]) ;;
       tell (Errored ["   1. PostgreSQL esté ejecutándose"]) ;;
       tell (Errored [String.append "   2. La base "
                        (String.append dquote
                           (String.append "kiosk"
                              (String.append dquote " exista")))]) ;;
       tell (Errored ["   3. Las credenciales sean correctas"])).

(** [{...row, stats: row.stats || {}}] *)
Definition with_stats_default (row : JsObject) : JsObject :=
  with_prop row "stats" (js_or (prop row "stats") (JObj [])).

Definition getAllTablets : Async unit :=
  try_catch
    (rows <- ask (PoolQuery SelectAllTablets) ;;
     let tablets := map with_stats_default rows in
     ask (Call (JArr (map JObj tablets))) ;;
     ret tt)
    (fun err =>
       tell (Errored ["❌ Error obteniendo tablets:"; Database.message err]) ;;
       ask (Call (JArr [])) ;;
       ret tt).

Definition getTablet (tabletId : JsVal) : Async unit :=
  try_catch
    (rows <- ask (PoolQuery (SelectTablet tabletId)) ;;
     match rows with
     | row :: _ => ask (Call (JObj (with_stats_default row))) ;; ret tt
     | [] => ask (Call JNull) ;; ret tt
     end)
    (fun err =>
       tell (Errored ["❌ Error obteniendo tablet:"; Database.message err]) ;;
       ask (Call JNull) ;;
       ret tt).

Definition updateCommandResult (tabletId command success response : JsVal)
  : Async unit :=
  try_catch
    (ask (PoolQuery (UpdateCommandResult success response tabletId command)) ;;
     ret tt)
    (fun err =>
       tell (Errored ["❌ Error actualizando resultado comando:";
                      Database.message err])).

(** A parameter with a default: the default stands in for [undefined]. *)
Definition defaulted (arg default : JsVal) : JsVal :=
  match arg with
  | JUndefined => default
  | _ => arg
  end.

(** [{...row, params: row.params || null}] *)
Definition with_params_default (row : JsObject) : JsObject :=
  with_prop row "params" (js_or (prop row "params") JNull).

(** [getLogs(tabletId = null, limit = 100)] *)
Definition getLogs (tabletId limit : JsVal) : Async JsVal :=
  let tabletId := defaulted tabletId JNull in
  let limit := defaulted limit (JNum 100) in
  try_catch
    (let query :=
       if truthy tabletId then SelectLogsOf tabletId limit
       else SelectLogs limit in
     rows <- ask (PoolQuery query) ;;
     ret (JArr (map (fun row => JObj (with_params_default row)) rows)))
    (fun err =>
       tell (Errored ["❌ Error obteniendo logs:"; Database.message err]) ;;
       ret (JArr [])).

(** [logActivity(tabletId, level, message, metadata = null)] *)
Definition logActivity (tabletId level message metadata : JsVal) : Async unit :=
  let metadata := defaulted metadata JNull in
  try_catch
    (ask (PoolQuery (InsertActivity tabletId level message metadata)) ;;
     ret tt)
    (fun err =>
       tell (Errored ["❌ Error logging actividad:"; Database.message err])).

Definition getStats : Async unit :=
  try_catch
    (rows <- ask (PoolQuery SelectStats) ;;
     ask (Call (js_or (match rows with
                       | row :: _ => JObj row
                       | [] => JUndefined
                       end) (JObj []))) ;;
     ret tt)
    (fun err =>
       tell (Errored ["❌ Error obteniendo estadísticas:";
                      Database.message err]) ;;
       ask (Call (JObj [])) ;;
       ret tt).

(** The names that every object literal inherits from [Object.prototype];
    each reads as a function or an object, hence as a truthy value. *)
Definition object_prototype_members : list string :=
  ["constructor"; "__defineGetter__"; "__defineSetter__"; "hasOwnProperty";
   "__lookupGetter__"; "__lookupSetter__"; "isPrototypeOf";
   "propertyIsEnumerable"; "toString"; "valueOf"; "__proto__";
   "toLocaleString"].

(** [columnMap[statsType]], for a string [statsType]: the own properties of
    the literal first, then the inherited ones; [None] is [undefined]. *)
Definition columnMap (statsType : string) : option Column :=
  if String.eqb statsType "url_change" then Some (Named "url_changes")
  else if String.eqb statsType "restart" then Some (Named "restarts")
  else if String.eqb statsType "command" then Some (Named "commands_received")
  else if existsb (String.eqb statsType) object_prototype_members
       then Some (Inherited statsType)
  else None.

(** [updateDailyStats(tabletId, statsType, increment = 1)], read at instant
    [now]. *)
Definition updateDailyStats (tabletId : JsVal) (statsType : string)
           (increment : JsVal) (now : Z) : Async unit :=
  let increment := defaulted increment (JNum 1) in
  let today := utc_day now in
  try_catch
    (ask (PoolQuery (InsertDailyStats tabletId today)) ;;
     match columnMap statsType with
     | Some column =>
         ask (PoolQuery (UpdateDailyStats column increment tabletId today)) ;;
         ret tt
     | None => ret tt
     end)
    (fun err =>
       tell (Errored ["❌ Error actualizando estadísticas diarias:";
                      Database.message err])).

(** [cleanOldData()].  [thirtyDaysAgo] is the instant that
    [setDate(getDate() - 30)] leaves in the [Date]; it is computed in the
    local time zone of the process, so it is taken as given. *)
Definition cleanOldData (thirtyDaysAgo : Z) : Async unit :=
  try_catch
    (ask (PoolQuery (DeleteCommandLogs thirtyDaysAgo)) ;;
     ask (PoolQuery (DeleteActivityLogs thirtyDaysAgo)) ;;
     ask (PoolQuery (DeleteDailyStats (utc_day thirtyDaysAgo))) ;;
     tell (Logged "🧹 Datos antiguos limpiados (PostgreSQL)" []))
    (fun err =>
       tell (Errored ["❌ Error limpiando datos antiguos:";
                      Database.message err])).

Definition testConnection : Async bool :=
  try_catch
    (ask PoolConnect ;;
     rows <- ask (ClientQuery SelectNow) ;;
     tell Released ;;
     match rows with
     | row :: _ =>
         tell (Logged "✅ Conexión PostgreSQL OK:" [prop row "current_time"]) ;;
         ret true
     | [] =>
         throw (Database.mkError
                  "Cannot read properties of undefined (reading 'current_time')")
     end)
    (fun err =>
       tell (Errored ["❌ Error de conexión PostgreSQL:";
                      Database.message err]) ;;
       ret false).

Definition getDatabaseInfo : Async JsVal :=
  try_catch
    (rows <- ask (PoolQuery SelectDatabaseInfo) ;;
     ret (match rows with
          | row :: _ => JObj row
          | [] => JUndefined
          end))
    (fun err =>
       tell (Errored ["❌ Error obteniendo info de BD:";
                      Database.message err]) ;;
       ret (JObj [])).

Definition close : Async unit :=
  try_catch
    (ask PoolEnd ;;
     tell (Logged "✅ Pool de conexiones PostgreSQL cerrado" []))
    (fun err =>
       tell (Errored ["❌ Error cerrando conexiones:"; Database.message err])).

(** A call of a method of the class. *)
Inductive Invocation : Type :=
| InitConnection
| InitTables
| GetAllTablets
| GetTablet (tabletId : JsVal)
| UpdateCommandResultOf (tabletId command success response : JsVal)
| GetLogs (tabletId limit : JsVal)
| LogActivity (tabletId level message metadata : JsVal)
| GetStats
| UpdateDailyStatsOf (tabletId : JsVal) (statsType : string)
                     (increment : JsVal) (now : Z)
| CleanOldData (thirtyDaysAgo : Z)
| TestConnection
| GetDatabaseInfo
| Close.

(** The call, with the value its promise is fulfilled with. *)
Definition invoke (i : Invocation) : Async JsVal :=
  match i with
  | InitConnection => initConnection ;; ret JUndefined
  | InitTables => initTables ;; ret JUndefined
  | GetAllTablets => getAllTablets ;; ret JUndefined
  | GetTablet tabletId => getTablet tabletId ;; ret JUndefined
  | UpdateCommandResultOf tabletId command success response =>
      updateCommandResult tabletId command success response ;; ret JUndefined
  | GetLogs tabletId limit => getLogs tabletId limit
  | LogActivity tabletId level message metadata =>
      logActivity tabletId level message metadata ;; ret JUndefined
  | GetStats => getStats ;; ret JUndefined
  | UpdateDailyStatsOf tabletId statsType increment now =>
      updateDailyStats tabletId statsType increment now ;; ret JUndefined
  | CleanOldData thirtyDaysAgo => cleanOldData thirtyDaysAgo ;; ret JUndefined
  | TestConnection => b <- testConnection ;; ret (JBool b)
  | GetDatabaseInfo => getDatabaseInfo
  | Close => close ;; ret JUndefined
  end.

(** Reading a list of steps. *)
Definition asked (statements : list Statement) : list Step :=
  map (fun s => Asked (ClientQuery s)) statements.

Definition calls (h : list Step) : list JsVal :=
  flat_map (fun s => match s with Asked (Call arg) => [arg] | _ => [] end) h.

Definition releases (h : list Step) : nat :=
  List.length (filter (fun s => match s with Released => true | _ => false end)
                      h).

Definition queries (h : list Step) : list Statement :=
  flat_map (fun s => match s with
                     | Asked (PoolQuery q) | Asked (ClientQuery q) => [q]
                     | _ => []
                     end) h.

Definition errors (h : list Step) : list (list string) :=
  flat_map (fun s => match s with Errored args => [args] | _ => [] end) h.

(** The callback of the caller never throws. *)
Definition callback_returns (env : Env) : Prop :=
  forall h arg, exists r, env h (Call arg) = Database.Fulfilled r.

(** Unfolding the method monad. *)
Ltac unfold_async := unfold try_catch, bind, ask, tell, ret, throw.

End DatabaseMethods.

(** Surroundings in which everything succeeds and every table is empty. *)
Definition quiet_env : DatabaseMethods.Env :=
  fun _ _ => Database.Fulfilled [].

(** Surroundings in which the query answers one tablet row and the callback
    throws on anything but the empty array. *)
Definition throwing_env : DatabaseMethods.Env :=
  fun _ r =>
    match r with
    | DatabaseMethods.Call (JArr []) => Database.Fulfilled []
    | DatabaseMethods.Call _ =>
        Database.Rejected (Database.mkError "tablets.forEach is not a function")
    | _ => Database.Fulfilled [[("id", JStr "A")]]
    end.

(** * Facts *)

(** ** The map operations *)

Module JsMapFacts.
Import JsMap.
Section WithValues.
Context {V : Type}.
Implicit Types (m : JsMap.t V) (k : string) (v : V).

Lemma get_set_same k v m : get k (set k v m) = Some v.
Proof.
  induction m as [|[k' v'] m IH]; simpl.
  - now rewrite String.eqb_refl.
  - destruct (String.eqb k' k) eqn:E; simpl; rewrite E; auto.
Qed.

Lemma get_set_other k k' v m : k <> k' -> get k' (set k v m) = get k' m.
Proof.
  intros Hne. induction m as [|[k0 v0] m IH]; simpl.
  - destruct (String.eqb_spec k k'); congruence.
  - destruct (String.eqb_spec k0 k); simpl.
    + subst. destruct (String.eqb_spec k k'); congruence.
    + now rewrite IH.
Qed.


Lemma get_delete_other k k' m : k <> k' -> get k' (delete k m) = get k' m.
Proof.
  intros Hne. induction m as [|[k0 v0] m IH]; simpl; auto.
  destruct (String.eqb_spec k0 k); simpl.
  - subst. destruct (String.eqb_spec k k'); congruence.
  - now rewrite IH.
Qed.

Lemma get_In k v m : get k m = Some v -> In (k, v) m.
Proof.
  induction m as [|[k' v'] m IH]; simpl; [discriminate|].
  destruct (String.eqb_spec k' k); intros H.
  - injection H as ->. subst. now left.
  - right. auto.
Qed.

Lemma get_None_not_key k m : get k m = None <-> ~ In k (keys m).
Proof.
  induction m as [|[k' v'] m IH]; simpl.
  - tauto.
  - destruct (String.eqb_spec k' k).
    + split; [discriminate | intros H; exfalso; apply H; now left].
    + rewrite IH. tauto.
Qed.

Lemma In_get k v m : wf m -> In (k, v) m -> get k m = Some v.
Proof.
  unfold wf. induction m as [|[k' v'] m IH]; simpl; [tauto|].
  intros Hnd [Heq | Hin].
  - injection Heq as -> ->. now rewrite String.eqb_refl.
  - inversion Hnd as [|? ? Hnotin Hnd']; subst.
    destruct (String.eqb_spec k' k).
    + subst. exfalso. apply Hnotin. change k with (fst (k, v)).
      now apply in_map.
    + auto.
Qed.

Lemma keys_set_present k v m :
  In k (keys m) -> keys (set k v m) = keys m.
Proof.
  induction m as [|[k' v'] m IH]; simpl; [tauto|].
  intros Hin. destruct (String.eqb_spec k' k); simpl; auto.
  f_equal. apply IH. destruct Hin; congruence.
Qed.

Lemma keys_set_absent k v m :
  ~ In k (keys m) -> keys (set k v m) = keys m ++ [k].
Proof.
  induction m as [|[k' v'] m IH]; simpl; auto.
  intros Hnotin. destruct (String.eqb_spec k' k); simpl.
  - subst. tauto.
  - f_equal. apply IH. tauto.
Qed.

Lemma wf_empty : wf (empty : JsMap.t V).
Proof. constructor. Qed.

Lemma wf_set k v m : wf m -> wf (set k v m).
Proof.
  unfold wf. intros Hwf.
  destruct (in_dec string_dec k (keys m)) as [Hin | Hnotin].
  - now rewrite keys_set_present.
  - rewrite keys_set_absent by assumption.
    apply NoDup_app; auto.
    + repeat constructor. simpl. tauto.
    + intros x Hx [<- | []]. contradiction.
Qed.

Lemma keys_delete k m :
  keys (delete k m) = filter (fun k' => negb (String.eqb k' k)) (keys m).
Proof.
  induction m as [|[k' v'] m IH]; simpl; auto.
  destruct (String.eqb k' k); simpl; now rewrite IH.
Qed.

Lemma wf_delete k m : wf m -> wf (delete k m).
Proof.
  unfold wf. rewrite keys_delete. apply NoDup_filter.
Qed.

Lemma wf_filter (p : string * V -> bool) m : wf m -> wf (filter p m).
Proof.
  unfold wf, keys. induction m as [|e m IH]; cbn [filter map]; intros H.
  - constructor.
  - inversion H as [|? ? Hnotin Hnd]; subst.
    destruct (p e); cbn [map]; auto.
    constructor; auto. intros Hin. apply in_map_iff in Hin as [e' [Hk He']].
    apply filter_In in He' as [He' _]. apply Hnotin. rewrite <- Hk.
    now apply in_map.
Qed.

Lemma In_set_inv k v e m :
  In e (set k v m) -> e = (k, v) \/ In e m.
Proof.
  induction m as [|[k' v'] m IH]; simpl.
  - intros [H | []]. now left.
  - destruct (String.eqb_spec k' k); simpl.
    + subst. intros [H | H]; auto.
    + intros [H | H]; auto. apply IH in H. tauto.
Qed.

Lemma In_delete e k m : In e (delete k m) <-> In e m /\ fst e <> k.
Proof.
  unfold delete. rewrite filter_In.
  destruct (String.eqb_spec (fst e) k); simpl; intuition congruence.
Qed.


Lemma has_set k v m : has k (set k v m) = true.
Proof. unfold has. now rewrite get_set_same. Qed.

Lemma has_get k v m : get k m = Some v -> has k m = true.
Proof. unfold has. now intros ->. Qed.

Lemma set_set k v v' m : set k v' (set k v m) = set k v' m.
Proof.
  induction m as [|[k0 v0] m IH]; simpl.
  - now rewrite String.eqb_refl.
  - destruct (String.eqb k0 k) eqn:E; simpl; rewrite E; auto.
    now rewrite IH.
Qed.

Lemma delete_set_same k v m : delete k (set k v m) = delete k m.
Proof.
  induction m as [|[k0 v0] m IH]; simpl.
  - now rewrite String.eqb_refl.
  - destruct (String.eqb k0 k) eqn:E; simpl; rewrite E; simpl; auto.
    now rewrite IH.
Qed.

Lemma get_Some_key k v m : get k m = Some v -> In k (keys m).
Proof.
  intros H. apply get_In in H. change k with (fst (k, v)).
  now apply in_map.
Qed.

Lemma In_values_set_inv k v x m :
  In x (values (set k v m)) -> x = v \/ In x (values m).
Proof.
  unfold values. rewrite !in_map_iff.
  intros [e [<- He]]. apply In_set_inv in He as [-> | He]; auto.
  right. now exists e.
Qed.

End WithValues.
End JsMapFacts.

(** ** Closed forms of the handlers *)

Import JsMapFacts.

Lemma tablet_register_eq socket payload data now :
  fields payload = Some data ->
  exists r,
    (forall w,
       tablet_register socket payload now w =
         (Normal tt,
          mkWorld (sockets w) (JsMap.set (socket_id socket) r (activeTablets w)),
          [DbUpdateTablet r;
           ConsoleLog "✅ Tablet registrada: ${tabletInfo.name} (${tabletInfo.ip})"
                      [name r; ip r];
           Broadcast (socket_id socket) "tablet-online" (PTablet r)]))
    /\ id r = js_or (prop data "tabletId") (JStr (socket_id socket))
    /\ name r = js_or (prop data "name")
                  (JStr (String.append "Tablet-"
                                       (substring 0 8 (socket_id socket))))
    /\ ip r = js_or (prop data "ip") (JStr (handshake_address socket))
    /\ status r = online
    /\ currentUrl r = js_or (prop data "currentUrl") (JStr "")
    /\ lastSeen r = now
    /\ uptime r = js_or (prop data "uptime") (JStr "00:00:00")
    /\ stats r = js_or (prop data "stats") (JObj []).
Proof.
  intros Hdata. exists (registered socket data now). split; [|repeat split].
  intros w. unfold tablet_register, bind, read. rewrite Hdata. reflexivity.
Qed.

Lemma read_throws payload k w :
  fields payload = None ->
  read payload k w = (Throw (TypeError payload k), w, []).
Proof. intros H. unfold read. now rewrite H. Qed.

Lemma tablet_register_throws socket payload now w :
  fields payload = None ->
  tablet_register socket payload now w
  = (Throw (TypeError payload "tabletId"), w, []).
Proof.
  intros H. unfold tablet_register, bind. now rewrite (read_throws _ _ _ H).
Qed.

Lemma tablet_status_bound socket payload data now w tablet :
  fields payload = Some data ->
  JsMap.get (socket_id socket) (activeTablets w) = Some tablet ->
  tablet_status socket payload now w =
    (Normal tt,
     mkWorld (sockets w)
             (JsMap.set (socket_id socket) (merged data now tablet)
                        (activeTablets w)),
     [DbUpdateTablet (merged data now tablet);
      Broadcast (socket_id socket) "tablet-status-update"
                (PTablet (merged data now tablet))]).
Proof.
  intros Hdata Hget. unfold tablet_status, bind, activeTablets_get, read.
  rewrite Hget, Hdata.
  unfold assign, activeTablets_set, do. cbn -[JsMap.set JsMap.has].
  rewrite (has_get _ _ _ Hget). rewrite !has_set, !set_set.
  reflexivity.
Qed.

Lemma tablet_status_throws socket payload now w tablet :
  fields payload = None ->
  JsMap.get (socket_id socket) (activeTablets w) = Some tablet ->
  tablet_status socket payload now w
  = (Throw (TypeError payload "currentUrl"), w, []).
Proof.
  intros Hdata Hget. unfold tablet_status. unfold bind at 1.
  unfold activeTablets_get. rewrite Hget. unfold bind.
  rewrite (read_throws _ _ _ Hdata). reflexivity.
Qed.

Lemma tablet_status_unbound socket payload now w :
  JsMap.get (socket_id socket) (activeTablets w) = None ->
  tablet_status socket payload now w = (Normal tt, w, []).
Proof.
  intros Hget. unfold tablet_status, bind, activeTablets_get.
  now rewrite Hget.
Qed.

Lemma mark_offline_bound sid tablet now w :
  JsMap.get sid (activeTablets w) = Some tablet ->
  mark_offline sid tablet now w =
    (Normal (final_record now tablet),
     mkWorld (sockets w)
             (JsMap.set sid (final_record now tablet) (activeTablets w)),
     []).
Proof.
  intros Hget. unfold mark_offline, bind, assign. cbn -[JsMap.set JsMap.has].
  rewrite (has_get _ _ _ Hget). rewrite has_set, set_set. reflexivity.
Qed.

Lemma disconnect_bound socket now w tablet :
  JsMap.get (socket_id socket) (activeTablets w) = Some tablet ->
  disconnect socket now w =
    (Normal tt,
     mkWorld (sockets w) (JsMap.delete (socket_id socket) (activeTablets w)),
     [ConsoleLog "📱 Tablet desconectada: ${tablet.name}" [name tablet];
      DbUpdateTablet (final_record now tablet);
      Broadcast (socket_id socket) "tablet-offline"
                (PTablet (final_record now tablet))]).
Proof.
  intros Hget. unfold disconnect. unfold bind at 1. unfold activeTablets_get.
  rewrite Hget. unfold bind, do.
  rewrite (mark_offline_bound _ _ _ _ Hget).
  unfold activeTablets_delete. cbn -[JsMap.set JsMap.delete].
  now rewrite delete_set_same.
Qed.

Lemma disconnect_unbound socket now w :
  JsMap.get (socket_id socket) (activeTablets w) = None ->
  disconnect socket now w = (Normal tt, w, []).
Proof.
  intros Hget. unfold disconnect, bind, activeTablets_get. now rewrite Hget.
Qed.

(** ** The sweep *)

Lemma sweep_loop_eq c entries : forall w,
  sweep_loop c entries w =
    (Normal tt,
     mkWorld (sockets w) (fold_left (evict c) entries (activeTablets w)),
     flat_map (evict_effects c) entries).
Proof.
  induction entries as [|[k t] rest IH]; intros w.
  - now destruct w.
  - cbn [sweep_loop fold_left flat_map]. unfold bind at 1.
    unfold evict at 2, evict_effects at 1, stale. cbn [fst snd].
    destruct (lastSeen t <? c) eqn:Hstale.
    + unfold bind, do, assign, activeTablets_delete.
      cbn -[JsMap.set JsMap.delete JsMap.has fold_left flat_map sweep_loop].
      rewrite IH. cbn -[JsMap.set JsMap.delete JsMap.has fold_left flat_map].
      destruct (JsMap.has k (activeTablets w)).
      * now rewrite delete_set_same.
      * reflexivity.
    + unfold ret. rewrite IH. reflexivity.
Qed.

Lemma fold_evict_filter c entries : forall m,
  fold_left (evict c) entries m =
    filter (fun e => negb (existsb (fun e' => stale c (snd e')
                                              && String.eqb (fst e) (fst e'))
                                   entries)) m.
Proof.
  induction entries as [|e' rest IH]; intros m; cbn [fold_left existsb].
  - induction m as [|e m IHm]; cbn [filter negb]; [reflexivity|].
    f_equal. exact IHm.
  - rewrite IH. unfold evict, JsMap.delete.
    destruct (stale c (snd e')); cbn [andb orb].
    + induction m as [|e m IHm]; cbn [filter]; auto.
      destruct (String.eqb (fst e) (fst e')); cbn [negb filter orb]; auto.
      destruct (negb _); congruence.
    + reflexivity.
Qed.

Lemma wf_same_key {V} (m : JsMap.t V) e e' :
  JsMap.wf m -> In e m -> In e' m -> fst e = fst e' -> e = e'.
Proof.
  intros Hwf He He' Hk. destruct e as [k v], e' as [k' v']. simpl in Hk. subst k'.
  pose proof (In_get _ _ _ Hwf He) as H1.
  pose proof (In_get _ _ _ Hwf He') as H2. congruence.
Qed.

Lemma sweep_registry now w :
  JsMap.wf (activeTablets w) ->
  activeTablets (exec (sweep now) w) =
    filter (fun e => negb (stale (now - staleThreshold) (snd e)))
           (activeTablets w).
Proof.
  intros Hwf. unfold exec, sweep, bind, get_world. rewrite sweep_loop_eq.
  cbn [fst snd activeTablets]. unfold JsMap.entries. rewrite fold_evict_filter.
  apply filter_ext_in. intros e He. f_equal.
  destruct (stale (now - staleThreshold) (snd e)) eqn:Hs.
  - apply existsb_exists. exists e. rewrite Hs, String.eqb_refl. auto.
  - apply not_true_is_false. intros Hex. apply existsb_exists in Hex.
    destruct Hex as [e' [He' Hb]]. apply andb_true_iff in Hb as [Hs' Hk].
    apply String.eqb_eq in Hk.
    rewrite (wf_same_key _ _ _ Hwf He He' Hk) in Hs. congruence.
Qed.

Lemma sweep_effects now w :
  effects (sweep now) w =
    flat_map (evict_effects (now - staleThreshold)) (activeTablets w).
Proof.
  unfold effects, sweep, bind, get_world. now rewrite sweep_loop_eq.
Qed.

Lemma sweep_sockets now w : sockets (exec (sweep now) w) = sockets w.
Proof.
  unfold exec, sweep, bind, get_world. now rewrite sweep_loop_eq.
Qed.

Lemma get_filter {V} (p : string * V -> bool) k v (m : JsMap.t V) :
  JsMap.wf m -> JsMap.get k m = Some v ->
  JsMap.get k (filter p m) = if p (k, v) then Some v else None.
Proof.
  intros Hwf Hget.
  pose proof (wf_filter p m Hwf) as Hwf'.
  destruct (p (k, v)) eqn:Hp.
  - apply In_get; auto. apply filter_In. split; auto. now apply get_In.
  - apply get_None_not_key. intros Hin. unfold JsMap.keys in Hin.
    apply in_map_iff in Hin as [[k' v'] [Hk He']]. simpl in Hk. subst k'.
    apply filter_In in He' as [He' Hp'].
    rewrite (In_get _ _ _ Hwf He') in Hget. congruence.
Qed.

(** ** Invariants of the registry *)

Lemma send_command_world socket data now w :
  exec (send_command socket data now) w = w.
Proof.
  unfold exec, send_command, bind, get_world, read.
  destruct (fields data); [|reflexivity].
  destruct (find _ _); reflexivity.
Qed.

Lemma command_executed_world socket data now w :
  exec (command_executed socket data now) w = w.
Proof.
  unfold exec, command_executed, bind, read.
  destruct (fields data); reflexivity.
Qed.

Lemma tablet_register_throws_world socket payload now w :
  fields payload = None -> exec (tablet_register socket payload now) w = w.
Proof.
  intros H. unfold exec. now rewrite (tablet_register_throws _ _ _ _ H).
Qed.

Lemma api_tablets_world w : exec api_tablets w = w.
Proof. reflexivity. Qed.

Lemma api_tablet_world tabletId w : exec (api_tablet tabletId) w = w.
Proof.
  unfold exec, api_tablet, bind, get_world. destruct (find _ _); reflexivity.
Qed.

Lemma api_command_world tabletId body reqIp now w :
  exec (api_command tabletId body reqIp now) w = w.
Proof.
  unfold exec, api_command, bind, get_world.
  destruct (find _ _) as [[k t]|]; cbn [fst snd]; [|reflexivity].
  destruct (truthy (JStr k)); [|reflexivity].
  destruct (JsMap.get k (sockets w)); reflexivity.
Qed.

Lemma api_stats_world up now w : exec (api_stats up now) w = w.
Proof. reflexivity. Qed.

Lemma closed_registry socket now w :
  activeTablets (exec (closed socket now) w) =
    JsMap.delete (socket_id socket) (activeTablets w).
Proof.
  unfold exec, closed. unfold bind at 1.
  set (w1 := mkWorld (JsMap.delete (socket_id socket) (sockets w))
                     (activeTablets w)).
  destruct (JsMap.get (socket_id socket) (activeTablets w)) as [t|] eqn:Hget.
  - rewrite (disconnect_bound socket now w1 t Hget). reflexivity.
  - rewrite (disconnect_unbound socket now w1 Hget). cbn [fst snd].
    subst w1. cbn [activeTablets]. symmetry.
    unfold JsMap.delete. apply forallb_filter_id. apply forallb_forall.
    intros [k v] Hin. cbn [fst]. destruct (String.eqb_spec k (socket_id socket));
      [|reflexivity].
    subst k. apply get_None_not_key in Hget. exfalso. apply Hget.
    change (socket_id socket) with (fst (socket_id socket, v)).
    now apply in_map.
Qed.

Lemma step_registry_ok e now w :
  registry_ok w -> registry_ok (exec (handler e now) w).
Proof.
  intros [Hwf Hon]. destruct e; cbn [handler].
  - (* connection *) exact (conj Hwf Hon).
  - (* tablet-register *)
    destruct (fields data) as [o|] eqn:Hdata;
      [|rewrite tablet_register_throws_world by assumption;
        exact (conj Hwf Hon)].
    destruct (tablet_register_eq socket data o now Hdata) as [r [Heq Hr]].
    unfold exec. rewrite Heq. cbn [fst snd activeTablets]. split.
    + now apply wf_set.
    + intros k t Hin. apply In_set_inv in Hin as [Hin | Hin].
      * injection Hin as _ ->. tauto.
      * eauto.
  - (* tablet-status *)
    destruct (JsMap.get (socket_id socket) (activeTablets w)) as [t0|] eqn:Hget.
    + destruct (fields data) as [o|] eqn:Hdata.
      * unfold exec. rewrite (tablet_status_bound _ data o now _ _ Hdata Hget).
        cbn [fst snd activeTablets]. split.
        -- now apply wf_set.
        -- intros k t Hin. apply In_set_inv in Hin as [Hin | Hin]; [|eauto].
           injection Hin as _ ->. cbn [merged status].
           apply (Hon (socket_id socket)). now apply get_In.
      * unfold exec. rewrite (tablet_status_throws _ data now _ _ Hdata Hget).
        exact (conj Hwf Hon).
    + unfold exec. rewrite (tablet_status_unbound _ data now _ Hget).
      exact (conj Hwf Hon).
  - rewrite send_command_world. exact (conj Hwf Hon).
  - rewrite command_executed_world. exact (conj Hwf Hon).
  - (* disconnect *)
    unfold registry_ok. rewrite closed_registry. split.
    + now apply wf_delete.
    + intros k t Hin. apply In_delete in Hin as [Hin _]. eauto.
  - rewrite api_tablets_world. exact (conj Hwf Hon).
  - rewrite api_tablet_world. exact (conj Hwf Hon).
  - rewrite api_command_world. exact (conj Hwf Hon).
  - rewrite api_stats_world. exact (conj Hwf Hon).
  - (* sweep *)
    unfold registry_ok. rewrite sweep_registry by assumption. split.
    + now apply wf_filter.
    + intros k t Hin. apply filter_In in Hin as [Hin _]. eauto.
Qed.

Lemma reachable_ok w : reachable w -> registry_ok w.
Proof.
  induction 1 as [|w e now _ IH].
  - split; [constructor | intros k t []].
  - now apply step_registry_ok.
Qed.

(** ** Worked examples *)

Example lobby_world_reachable : reachable lobby_world.
Proof. repeat apply reachable_step. apply reachable_initial. Qed.

Example lobby_snapshot :
  snapshot lobby_world =
    [mkTablet (JStr "A") (JStr "Lobby") (JStr "10.0.0.5") online
              (JStr "http://a") 0 (JStr "00:00:00") (JObj [])].
Proof. reflexivity. Qed.

Example lobby_default_name :
  option_map name
    (JsMap.get "s1AbCdEfGhIjKl"
       (activeTablets (exec (tablet_register lobby (JObj []) 7) initial)))
  = Some (JStr "Tablet-s1AbCdEf").
Proof. reflexivity. Qed.

Example lobby_reload_accepted :
  send_command dashboard
               (JObj [("tabletId", JStr "A"); ("command", JStr "reload")])
               5 lobby_world
  = (Normal tt, lobby_world,
     [Emit "s1AbCdEfGhIjKl" "remote-command"
           (PRemoteCommand (JStr "reload") JUndefined);
      ConsoleLog "📤 Comando enviado a ${tabletId}: ${command}"
                 [JStr "A"; JStr "reload"];
      DbLogCommand (mkCommand (JStr "A") (JStr "reload") JUndefined 5
                              (JStr "10.0.0.9"))]).
Proof. reflexivity. Qed.

Example lobby_disconnects :
  let w := exec (handler (Closed lobby) 9) lobby_world in
  snapshot w = []
  /\ persisted (effects (handler (Closed lobby) 9) lobby_world)
     = [mkTablet (JStr "A") (JStr "Lobby") (JStr "10.0.0.5") offline
                 (JStr "http://a") 9 (JStr "00:00:00") (JObj [])]
  /\ effects (send_command dashboard
                (JObj [("tabletId", JStr "A"); ("command", JStr "reload")])
                10) w
     = [Emit "o1dashboard" "command-error"
             (PCommandError "Tablet no encontrada o desconectada" (JStr "A"))].
Proof. repeat split. Qed.

(** A command message that carries no [tabletId] is not looked up among the
    registered tablets only: [activeTablets.get(s.id)?.id] is [undefined]
    for every connection that has not registered, so the first such
    connection is taken as the target. *)
Example send_command_without_tabletId :
  effects (send_command dashboard (JObj [("command", JStr "reload")]) 5)
          lobby_world
  = [Emit "o1dashboard" "remote-command"
          (PRemoteCommand (JStr "reload") JUndefined);
     ConsoleLog "📤 Comando enviado a ${tabletId}: ${command}"
                [JUndefined; JStr "reload"];
     DbLogCommand (mkCommand JUndefined (JStr "reload") JUndefined 5
                             (JStr "10.0.0.9"))].
Proof. reflexivity. Qed.

(** ** DeviceRegistry.register *)




(** C2, as the code has it.  When a handle that already has a record
    registers again, with a payload other than [undefined] and [null], the
    record is rebuilt from the second payload and the connection alone: every
    field is recomputed, the prior record leaves no trace.  If the second
    payload's [tabletId] is absent or falsy (the empty string, zero, [null],
    [false]), the [id] becomes the connection handle, so the prior [id]
    survives only when it was the handle itself; if the payload's [tabletId]
    is truthy, the [id] is that value.  Each other field is the payload's
    value when truthy and the default otherwise, [status] is online and
    [lastSeen] is the instant of the second call. *)
Theorem second_register_rebuilds_record
        (socket : Socket) (payload : JsVal) (data : JsObject) (now : Z)
        (w : World) (prior : TabletInfo) :
  JsMap.get (socket_id socket) (activeTablets w) = Some prior ->
  fields payload = Some data ->
  let pick k default := if truthy (prop data k) then prop data k else default in
  exists r,
    JsMap.get (socket_id socket)
              (activeTablets (exec (tablet_register socket payload now) w))
    = Some r
    /\ JsMap.get (socket_id socket)
                 (activeTablets (exec (tablet_register socket payload now)
                                      initial))
       = Some r
    /\ (prop data "tabletId" = JUndefined -> id r = JStr (socket_id socket))
    /\ (truthy (prop data "tabletId") = false ->
        id r = JStr (socket_id socket)
        /\ (id r = id prior <-> id prior = JStr (socket_id socket)))
    /\ (truthy (prop data "tabletId") = true -> id r = prop data "tabletId")
    /\ name r = pick "name"
                      (JStr (String.append "Tablet-"
                                           (substring 0 8 (socket_id socket))))
    /\ ip r = pick "ip" (JStr (handshake_address socket))
    /\ status r = online
    /\ currentUrl r = pick "currentUrl" (JStr "")
    /\ lastSeen r = now
    /\ uptime r = pick "uptime" (JStr "00:00:00")
    /\ stats r = pick "stats" (JObj []).
Proof.
  intros _ Hdata pick.
  destruct (tablet_register_eq socket payload data now Hdata)
    as [r [Heq [Hid [Hname [Hip [Hst [Hurl [Hls [Hup Hstats]]]]]]]]].
  exists r. unfold exec. rewrite !Heq. cbn [fst snd activeTablets].
  split; [apply get_set_same|]. split; [apply get_set_same|].
  split.
  { intros Habs. rewrite Hid, Habs. reflexivity. }
  split.
  { intros Hfalsy. rewrite Hid. unfold js_or. rewrite Hfalsy.
    split; [reflexivity|]. split; congruence. }
  split.
  { intros Htr. rewrite Hid. unfold js_or. now rewrite Htr. }
  repeat split; assumption.
Qed.

(** An instance: the lobby tablet registers a second time. *)
Lemma second_register_rebuilds_record_witness :
  JsMap.get (socket_id lobby) (activeTablets lobby_world)
  = Some (mkTablet (JStr "A") (JStr "Lobby") (JStr "10.0.0.5") online
                   (JStr "http://a") 0 (JStr "00:00:00") (JObj []))
  /\ fields (JObj [("tabletId", JStr "")]) = Some [("tabletId", JStr "")]
  /\ exists r,
       JsMap.get (socket_id lobby)
                 (activeTablets
                    (exec (tablet_register lobby
                             (JObj [("tabletId", JStr "")]) 60000)
                          lobby_world))
       = Some r
       /\ id r = JStr (socket_id lobby).
Proof.
  split; [reflexivity|]. split; [reflexivity|].
  destruct (second_register_rebuilds_record
              lobby (JObj [("tabletId", JStr "")]) _ 60000 lobby_world _
              eq_refl eq_refl)
    as [r [Hget [_ [_ [Hid _]]]]].
  exists r. split; [exact Hget | exact (proj1 (Hid eq_refl))].
Defined.

(** C2, as the claim states it, fails: the lobby tablet registered as ["A"];
    its second registration omits [tabletId], and the record's [id] is then
    the connection handle, not ["A"]. *)
Lemma second_register_drops_prior_id :
  let w1 := lobby_world in
  let w2 :=
    exec (tablet_register lobby (JObj [("name", JStr "Lobby 2")]) 60000) w1 in
  prop [("name", JStr "Lobby 2")] "tabletId" = JUndefined
  /\ option_map id (JsMap.get (socket_id lobby) (activeTablets w1))
     = Some (JStr "A")
  /\ option_map id (JsMap.get (socket_id lobby) (activeTablets w2))
     = Some (JStr "s1AbCdEfGhIjKl")
  /\ option_map id (JsMap.get (socket_id lobby) (activeTablets w2))
     <> option_map id (JsMap.get (socket_id lobby) (activeTablets w1)).
Proof. repeat split. discriminate. Qed.

(** ** DeviceRegistry.updateStatus *)

(** C3, as the code has it.  For a handle with a record and a payload other
    than [undefined] and [null], ['tablet-status'] overwrites [currentUrl],
    [uptime] and [stats] exactly where the payload's value is truthy; a field
    that is absent from the payload, or present with a falsy value (the empty
    string, zero, [null], [false]), keeps the record's value.  [id], [name],
    [ip] and [status] are kept, [lastSeen] becomes the instant of the call,
    no other binding changes, and the merged record is handed to
    [db.updateTablet] and broadcast as ['tablet-status-update'].  With a
    record and no payload the handler throws on reading [data.currentUrl],
    before it changes anything.  For a handle without a record the handler
    does nothing, whatever the payload: the state is the same and nothing is
    sent, logged or persisted. *)
Theorem status_merges_truthy_fields
        (socket : Socket) (payload : JsVal) (now : Z) (w : World) :
  let sid := socket_id socket in
  let w' := exec (tablet_status socket payload now) w in
  match JsMap.get sid (activeTablets w), fields payload with
  | Some tablet, Some data =>
      exists r,
        tablet_status socket payload now w
        = (Normal tt,
           mkWorld (sockets w) (JsMap.set sid r (activeTablets w)),
           [DbUpdateTablet r;
            Broadcast sid "tablet-status-update" (PTablet r)])
        /\ JsMap.get sid (activeTablets w') = Some r
        /\ currentUrl r = (if truthy (prop data "currentUrl")
                           then prop data "currentUrl" else currentUrl tablet)
        /\ uptime r = (if truthy (prop data "uptime")
                       then prop data "uptime" else uptime tablet)
        /\ stats r = (if truthy (prop data "stats")
                      then prop data "stats" else stats tablet)
        /\ id r = id tablet /\ name r = name tablet /\ ip r = ip tablet
        /\ status r = status tablet
        /\ lastSeen r = now
        /\ (forall k, k <> sid ->
              JsMap.get k (activeTablets w') = JsMap.get k (activeTablets w))
  | Some tablet, None =>
      tablet_status socket payload now w
      = (Throw (TypeError payload "currentUrl"), w, [])
  | None, _ => tablet_status socket payload now w = (Normal tt, w, [])
  end.
Proof.
  intros sid w'. subst w'.
  destruct (JsMap.get sid (activeTablets w)) as [tablet|] eqn:Hget.
  - destruct (fields payload) as [data|] eqn:Hdata.
    + exists (merged data now tablet). unfold exec.
      rewrite (tablet_status_bound socket payload data now w tablet Hdata Hget).
      cbn [fst snd activeTablets]. repeat split.
      * apply get_set_same.
      * intros k Hk. apply get_set_other. intros E. apply Hk. now rewrite <- E.
    + now apply tablet_status_throws with (tablet := tablet).
  - now apply tablet_status_unbound.
Qed.

(** C3, as the claim states it, fails: the lobby tablet shows
    ["http://a"]; a status message whose [currentUrl] is the empty string has
    the field, yet the record keeps ["http://a"]. *)
Lemma status_keeps_field_on_empty_string :
  let data := [("currentUrl", JStr "")] in
  let w' := exec (tablet_status lobby (JObj data) 1000) lobby_world in
  prop data "currentUrl" <> JUndefined
  /\ option_map currentUrl (JsMap.get (socket_id lobby) (activeTablets w'))
     = Some (JStr "http://a")
  /\ option_map currentUrl (JsMap.get (socket_id lobby) (activeTablets w'))
     <> Some (prop data "currentUrl").
Proof. repeat split; discriminate. Qed.

(** C10, as the code has it.  For a handle with a record, ['tablet-status']
    sets the record's [lastSeen] to the instant of the call for every payload
    other than [undefined] and [null], whatever it holds; with a payload that
    has no fields the record changes in nothing else.  The device's staleness
    clock starts again: no sweep up to five minutes after the call evicts the
    record. *)
Theorem status_always_refreshes_lastSeen
        (socket : Socket) (payload : JsVal) (data : JsObject) (now : Z)
        (w : World) (tablet : TabletInfo) :
  JsMap.wf (activeTablets w) ->
  JsMap.get (socket_id socket) (activeTablets w) = Some tablet ->
  fields payload = Some data ->
  (exists r,
     JsMap.get (socket_id socket)
               (activeTablets (exec (tablet_status socket payload now) w))
     = Some r
     /\ lastSeen r = now
     /\ forall later, later <= now + staleThreshold ->
          JsMap.get (socket_id socket)
                    (activeTablets
                       (exec (sweep later)
                             (exec (tablet_status socket payload now) w)))
          = Some r)
  /\ (data = [] ->
      JsMap.get (socket_id socket)
                (activeTablets (exec (tablet_status socket payload now) w))
      = Some (with_lastSeen now tablet)).
Proof.
  intros Hwf Hget Hdata. split.
  - exists (merged data now tablet). unfold exec at 1 3.
    rewrite (tablet_status_bound socket payload data now w tablet Hdata Hget).
    cbn [fst snd activeTablets]. repeat split.
    + apply get_set_same.
    + intros later Hlater. rewrite sweep_registry.
      * cbn [activeTablets]. rewrite (get_filter _ _ (merged data now tablet)).
        -- unfold stale. cbn [snd merged lastSeen].
           destruct (Z.ltb_spec now (later - staleThreshold)); [lia|reflexivity].
        -- now apply wf_set.
        -- apply get_set_same.
      * cbn [activeTablets]. now apply wf_set.
  - intros ->. unfold exec.
    rewrite (tablet_status_bound socket payload [] now w tablet Hdata Hget).
    cbn [fst snd activeTablets]. rewrite get_set_same. reflexivity.
Qed.

(** An instance: the lobby tablet, last seen at 0, sends an empty status at
    250 s; the sweep at 300.001 s, which would have evicted it, leaves it. *)
Lemma status_always_refreshes_lastSeen_witness :
  JsMap.wf (activeTablets lobby_world)
  /\ JsMap.get (socket_id lobby) (activeTablets lobby_world)
     = Some (mkTablet (JStr "A") (JStr "Lobby") (JStr "10.0.0.5") online
                      (JStr "http://a") 0 (JStr "00:00:00") (JObj []))
  /\ fields (JObj []) = Some []
  /\ JsMap.get (socket_id lobby)
               (activeTablets
                  (exec (tablet_status lobby (JObj []) 250000) lobby_world))
     = Some (mkTablet (JStr "A") (JStr "Lobby") (JStr "10.0.0.5") online
                      (JStr "http://a") 250000 (JStr "00:00:00") (JObj [])).
Proof.
  assert (Hwf : JsMap.wf (activeTablets lobby_world)).
  { repeat constructor. simpl. tauto. }
  split; [exact Hwf|]. split; [reflexivity|]. split; [reflexivity|].
  exact (proj2 (status_always_refreshes_lastSeen lobby (JObj []) [] 250000
                  lobby_world _ Hwf eq_refl eq_refl) eq_refl).
Defined.

(** C10, as the claim states it, fails: a ['tablet-status'] that carries no
    payload, from the lobby tablet, throws on reading [data.currentUrl]; the
    record's [lastSeen] stays at 0 and the staleness clock is not reset. *)
Lemma status_without_payload_keeps_lastSeen :
  tablet_status lobby JUndefined 250000 lobby_world
  = (Throw (TypeError JUndefined "currentUrl"), lobby_world, [])
  /\ option_map lastSeen
       (JsMap.get (socket_id lobby)
          (activeTablets (exec (tablet_status lobby JUndefined 250000)
                               lobby_world)))
     = Some 0
  /\ JsMap.get (socket_id lobby)
               (activeTablets
                  (exec (sweep 301000)
                        (exec (tablet_status lobby JUndefined 250000)
                              lobby_world)))
     = None.
Proof. repeat split. Qed.

(** ** DeviceRegistry.remove *)



(** ** StalenessReaper *)

(** C1 at the failing input.  The sweep that runs 301 s after the lobby
    tablet was last seen evicts it: the record is marked offline, handed to
    [db.updateTablet] and unbound.  It raises no event at all, and the record
    it persists still carries the old [lastSeen]; the ['disconnect'] handler
    on the same state, at the same instant, broadcasts ['tablet-offline'] once
    and persists [lastSeen] as that instant. *)
Theorem sweep_eviction_raises_no_event :
  let evicted :=
    mkTablet (JStr "A") (JStr "Lobby") (JStr "10.0.0.5") offline
             (JStr "http://a") 0 (JStr "00:00:00") (JObj []) in
  snapshot (exec (sweep 301000) lobby_world) = []
  /\ effects (sweep 301000) lobby_world
     = [ConsoleLog "🧹 Limpiando tablet inactiva: ${tablet.name}" [JStr "Lobby"];
        DbUpdateTablet evicted]
  /\ filter is_emission (effects (sweep 301000) lobby_world) = []
  /\ List.length (filter (is_broadcast_of "tablet-offline")
                         (effects (sweep 301000) lobby_world)) = 0%nat
  /\ filter is_emission (effects (disconnect lobby 301000) lobby_world)
     = [Broadcast "s1AbCdEfGhIjKl" "tablet-offline"
                  (PTablet (with_lastSeen 301000 evicted))]
  /\ persisted (effects (disconnect lobby 301000) lobby_world)
     = [with_lastSeen 301000 evicted].
Proof. repeat split. Qed.

(** No sweep ever emits or broadcasts anything, whatever it evicts. *)
Lemma sweep_never_emits now w :
  filter is_emission (effects (sweep now) w) = [].
Proof.
  rewrite sweep_effects. induction (activeTablets w) as [|e m IH]; auto.
  cbn [flat_map]. unfold evict_effects at 1.
  destruct (stale _ _); cbn [app filter is_emission]; exact IH.
Qed.

(** An evicted record is handed to the database as offline, with the
    [lastSeen] it had. *)
Lemma sweep_persists_stale_as_offline now w k tablet :
  In (k, tablet) (activeTablets w) ->
  lastSeen tablet < now - staleThreshold ->
  In (with_status offline tablet) (persisted (effects (sweep now) w)).
Proof.
  intros Hin Hstale. rewrite sweep_effects. unfold persisted.
  apply in_flat_map. exists (DbUpdateTablet (with_status offline tablet)).
  split; [|now left]. apply in_flat_map. exists (k, tablet). split; auto.
  unfold evict_effects, stale. cbn [snd].
  destruct (Z.ltb_spec (lastSeen tablet) (now - staleThreshold)); [|lia].
  right. now left.
Qed.

(** C5.  A sweep keeps exactly the bindings whose [lastSeen] is not earlier
    than the instant of the sweep minus five minutes, and removes the others.
    For a record last seen at [T], the sweep one second before [T] plus five
    minutes keeps the binding, the sweep one second after removes it. *)
Theorem sweep_evicts_exactly_the_stale (now : Z) (w : World) :
  JsMap.wf (activeTablets w) ->
  activeTablets (exec (sweep now) w)
  = filter (fun e => negb (lastSeen (snd e) <? now - staleThreshold))
           (activeTablets w)
  /\ (forall sid tablet,
        JsMap.get sid (activeTablets w) = Some tablet ->
        (lastSeen tablet < now - staleThreshold ->
         JsMap.get sid (activeTablets (exec (sweep now) w)) = None)
        /\ (now - staleThreshold <= lastSeen tablet ->
            JsMap.get sid (activeTablets (exec (sweep now) w)) = Some tablet))
  /\ (forall sid tablet,
        JsMap.get sid (activeTablets w) = Some tablet ->
        let T := lastSeen tablet in
        JsMap.get sid
          (activeTablets (exec (sweep (T + staleThreshold - 1000)) w))
        = Some tablet
        /\ JsMap.get sid
             (activeTablets (exec (sweep (T + staleThreshold + 1000)) w))
           = None).
Proof.
  intros Hwf.
  assert (Hone : forall at_ sid tablet,
             JsMap.get sid (activeTablets w) = Some tablet ->
             JsMap.get sid (activeTablets (exec (sweep at_) w))
             = if lastSeen tablet <? at_ - staleThreshold
               then None else Some tablet).
  { intros at_ sid tablet Hget. rewrite sweep_registry by assumption.
    rewrite (get_filter _ _ tablet) by assumption. unfold stale. cbn [snd].
    now destruct (lastSeen tablet <? at_ - staleThreshold). }
  split; [now apply sweep_registry|]. split.
  - intros sid tablet Hget. rewrite (Hone _ _ _ Hget).
    split; intros H;
      destruct (Z.ltb_spec (lastSeen tablet) (now - staleThreshold));
      auto; lia.
  - intros sid tablet Hget T. rewrite !(Hone _ _ _ Hget). subst T.
    split.
    + destruct (Z.ltb_spec (lastSeen tablet)
                  (lastSeen tablet + staleThreshold - 1000 - staleThreshold));
        [lia | reflexivity].
    + destruct (Z.ltb_spec (lastSeen tablet)
                  (lastSeen tablet + staleThreshold + 1000 - staleThreshold));
        [reflexivity | lia].
Qed.

(** An instance: the sweep at 301 s removes
    the lobby tablet and keeps the hall tablet. *)
Lemma sweep_evicts_exactly_the_stale_witness :
  JsMap.wf (activeTablets two_tablets)
  /\ JsMap.keys (activeTablets two_tablets)
     = ["s1AbCdEfGhIjKl"; "s2MnOpQrStUvWx"]
  /\ JsMap.keys (activeTablets (exec (sweep 301000) two_tablets))
     = ["s2MnOpQrStUvWx"].
Proof.
  assert (Hwf : JsMap.wf (activeTablets two_tablets)).
  { repeat constructor; simpl; intuition discriminate. }
  split; [exact Hwf|]. split; [reflexivity|].
  rewrite (proj1 (sweep_evicts_exactly_the_stale 301000 two_tablets Hwf)).
  reflexivity.
Defined.

(** ** The online invariant and /api/stats *)

(** C9.  In every state the server can be in between two handlers, every
    record of [activeTablets] has [status] online; so the [onlineTablets]
    count that [/api/stats] answers is its [totalTablets], the size of
    [activeTablets]. *)
Theorem active_records_are_online (w : World) :
  reachable w ->
  Forall (fun t => status t = online) (snapshot w)
  /\ forall processUptime now,
       api_stats processUptime now w
       = (Normal tt, w,
          [Respond 200 true
             (BStats (JsMap.size (activeTablets w))
                     (JsMap.size (activeTablets w)) processUptime now)]).
Proof.
  intros Hreach. apply reachable_ok in Hreach as [_ Hon].
  assert (Hall : Forall (fun t => status t = online) (snapshot w)).
  { apply Forall_forall. intros t Hin. unfold snapshot, JsMap.values in Hin.
    apply in_map_iff in Hin as [[k t'] [<- Hin]]. eauto. }
  split; [exact Hall|]. intros up now.
  unfold api_stats, bind, get_world, do. cbn [app]. repeat f_equal.
  fold (snapshot w). unfold JsMap.size.
  rewrite forallb_filter_id.
  - unfold snapshot, JsMap.values. apply length_map.
  - apply forallb_forall. intros t Hin.
    rewrite Forall_forall in Hall. now rewrite (Hall t Hin).
Qed.

(** An instance: the state with the lobby and
    the hall tablets. *)
Lemma active_records_are_online_witness :
  reachable two_tablets
  /\ Forall (fun t => status t = online) (snapshot two_tablets)
  /\ effects (api_stats JNull 300000) two_tablets
     = [Respond 200 true (BStats 2 2 JNull 300000)].
Proof.
  assert (Hreach : reachable two_tablets).
  { repeat apply reachable_step. apply reachable_initial. }
  split; [exact Hreach|].
  destruct (active_records_are_online two_tablets Hreach) as [Hall Hstats].
  split; [exact Hall|]. unfold effects. rewrite Hstats. reflexivity.
Defined.

(** ** CommandRouter.dispatch *)





(** ** Persistence failures *)

Import Database.

Example register_while_pool_is_down :
  let e := TabletRegister lobby (JObj [("tabletId", JStr "A")]) in
  fst (turn refusing_pool e 0 initial) = fst (turn accepting_pool e 0 initial)
  /\ map outcome (snd (turn refusing_pool e 0 initial)) = [Fulfilled tt]
  /\ map stderr (snd (turn refusing_pool e 0 initial))
     = [[("❌ Error actualizando tablet:",
          "connect ECONNREFUSED 127.0.0.1:5432")]].
Proof. repeat split. Qed.

Lemma updateTablet_run pool tabletInfo :
  exists q,
    queried (updateTablet tabletInfo pool) = [q]
    /\ outcome (updateTablet tabletInfo pool) = Fulfilled tt
    /\ stderr (updateTablet tabletInfo pool)
       = match pool q with
         | Fulfilled _ => []
         | Rejected err => [("❌ Error actualizando tablet:", message err)]
         end.
Proof.
  destruct tabletInfo as [i n a s u l up st].
  exists (InsertTablet i n a s u l up st).
  unfold updateTablet, try_catch, pool_query, console_error.
  cbn [outcome queried stderr].
  destruct (pool _) as [[]|err]; repeat split.
Qed.

Lemma logCommand_run pool commandInfo :
  exists q,
    queried (logCommand commandInfo pool) = [q]
    /\ outcome (logCommand commandInfo pool) = Fulfilled tt
    /\ stderr (logCommand commandInfo pool)
       = match pool q with
         | Fulfilled _ => []
         | Rejected err => [("❌ Error logging comando:", message err)]
         end.
Proof.
  destruct commandInfo as [i c p t s].
  exists (InsertCommandLog i c p t s).
  unfold logCommand, try_catch, pool_query, console_error.
  cbn [outcome queried stderr].
  destruct (pool _) as [[]|err]; repeat split.
Qed.

(** C8.  Whatever the pool answers, [updateTablet] and [logCommand] send
    their one statement once, their promise is fulfilled, never rejected,
    and a failure leaves one [console.error] line with the error's message
    and nothing else.  For every event, every database call the handler
    started settles in this way, and the state the handler leaves and
    everything it sends or responds are the same under any two pools. *)
Theorem persistence_failures_are_swallowed (pool : Pool) :
  (forall tabletInfo,
     exists q,
       queried (updateTablet tabletInfo pool) = [q]
       /\ outcome (updateTablet tabletInfo pool) = Fulfilled tt
       /\ stderr (updateTablet tabletInfo pool)
          = match pool q with
            | Fulfilled _ => []
            | Rejected err => [("❌ Error actualizando tablet:", message err)]
            end)
  /\ (forall commandInfo,
        exists q,
          queried (logCommand commandInfo pool) = [q]
          /\ outcome (logCommand commandInfo pool) = Fulfilled tt
          /\ stderr (logCommand commandInfo pool)
             = match pool q with
               | Fulfilled _ => []
               | Rejected err => [("❌ Error logging comando:", message err)]
               end)
  /\ (forall e now w,
        Forall (fun r => outcome r = Fulfilled tt
                         /\ List.length (queried r) = 1%nat)
               (snd (turn pool e now w))
        /\ forall pool', fst (turn pool' e now w) = fst (turn pool e now w)).
Proof.
  split; [intros t; apply updateTablet_run|].
  split; [intros c; apply logCommand_run|].
  intros e now w. unfold turn.
  destruct (handler e now w) as [[u w'] out]. cbn [fst snd]. split.
  - induction out as [|eff out IH]; cbn [flat_map]; [constructor|].
    apply Forall_app. split; [|exact IH].
    destruct eff; cbn [settle];
      [constructor | | | constructor | constructor | constructor].
    + destruct (updateTablet_run pool tabletInfo) as [q [Hq [Ho _]]].
      repeat constructor; [exact Ho | now rewrite Hq].
    + destruct (logCommand_run pool commandInfo) as [q [Hq [Ho _]]].
      repeat constructor; [exact Ho | now rewrite Hq].
  - reflexivity.
Qed.

(** * Further facts *)

(** ** Closed forms for every event *)

Lemma tablet_register_run socket payload data now w :
  fields payload = Some data ->
  tablet_register socket payload now w =
    (Normal tt,
     mkWorld (sockets w)
             (JsMap.set (socket_id socket) (registered socket data now)
                        (activeTablets w)),
     [DbUpdateTablet (registered socket data now);
      ConsoleLog "✅ Tablet registrada: ${tabletInfo.name} (${tabletInfo.ip})"
                 [name (registered socket data now);
                  ip (registered socket data now)];
      Broadcast (socket_id socket) "tablet-online"
                (PTablet (registered socket data now))]).
Proof.
  intros Hdata. unfold tablet_register. unfold_M. unfold read.
  rewrite Hdata. reflexivity.
Qed.

Lemma closed_sockets socket now w :
  sockets (exec (closed socket now) w)
  = JsMap.delete (socket_id socket) (sockets w).
Proof.
  unfold exec, closed. unfold_first_bind.
  set (w1 := mkWorld (JsMap.delete (socket_id socket) (sockets w))
                     (activeTablets w)).
  destruct (JsMap.get (socket_id socket) (activeTablets w)) as [t|] eqn:Hget.
  - rewrite (disconnect_bound socket now w1 t Hget). reflexivity.
  - rewrite (disconnect_unbound socket now w1 Hget). reflexivity.
Qed.

Lemma handler_sockets e now w :
  sockets (exec (handler e now) w)
  = match e with
    | Connection socket => JsMap.set (socket_id socket) socket (sockets w)
    | Closed socket => JsMap.delete (socket_id socket) (sockets w)
    | _ => sockets w
    end.
Proof.
  destruct e; cbn [handler].
  - reflexivity.
  - destruct (fields data) as [o|] eqn:Hdata.
    + unfold exec. now rewrite (tablet_register_run _ _ _ _ _ Hdata).
    + now rewrite tablet_register_throws_world.
  - destruct (JsMap.get (socket_id socket) (activeTablets w)) as [t|] eqn:Hget.
    + destruct (fields data) as [o|] eqn:Hdata.
      * unfold exec. now rewrite (tablet_status_bound _ data o now _ _ Hdata Hget).
      * unfold exec. now rewrite (tablet_status_throws _ data now _ _ Hdata Hget).
    + unfold exec. now rewrite (tablet_status_unbound _ data now _ Hget).
  - now rewrite send_command_world.
  - now rewrite command_executed_world.
  - apply closed_sockets.
  - reflexivity.
  - now rewrite api_tablet_world.
  - now rewrite api_command_world.
  - reflexivity.
  - apply sweep_sockets.
Qed.

Lemma handler_read_only e now w :
  read_only e = true -> activeTablets (exec (handler e now) w) = activeTablets w.
Proof.
  destruct e; cbn [read_only handler]; intros H; try discriminate H.
  - reflexivity.
  - now rewrite send_command_world.
  - now rewrite command_executed_world.
  - reflexivity.
  - now rewrite api_tablet_world.
  - now rewrite api_command_world.
  - reflexivity.
Qed.

(** ** Live states *)

Lemma live_reachable clock w : live clock w -> reachable w.
Proof.
  induction 1 as [|clock w e now _ IH _ _]; [apply reachable_initial|].
  now apply reachable_step.
Qed.

Lemma In_keys_set {V} k k' (v : V) m :
  In k (JsMap.keys m) -> In k (JsMap.keys (JsMap.set k' v m)).
Proof.
  intros Hin. destruct (in_dec string_dec k' (JsMap.keys m)) as [H | H].
  - now rewrite keys_set_present.
  - rewrite keys_set_absent by assumption. apply in_or_app. now left.
Qed.

Lemma truthy_js_or a b : truthy b = true -> truthy (js_or a b) = true.
Proof. intros Hb. unfold js_or. destruct (truthy a) eqn:Ha; assumption. Qed.

Lemma truthy_default_name sid :
  truthy (JStr (String.append "Tablet-" (substring 0 8 sid))) = true.
Proof. reflexivity. Qed.

Lemma truthy_handle k : k <> "" -> truthy (JStr k) = true.
Proof.
  intros Hk. cbn [truthy]. destruct (String.eqb_spec k ""); [contradiction|].
  reflexivity.
Qed.

Lemma step_connections_ok clock w e now :
  registry_ok w -> connections_ok clock w -> admissible w e -> clock <= now ->
  connections_ok now (exec (handler e now) w).
Proof.
  intros [Hwft _] (Hwfs & Hsock & Htab) Hadm Hclock.
  assert (Hold : forall k t, In (k, t) (activeTablets w) ->
                   truthy (id t) = true /\ truthy (name t) = true
                   /\ lastSeen t <= now).
  { intros k t Hin. destruct (Htab k t Hin) as (_ & ? & ? & ?).
    repeat split; auto; lia. }
  unfold connections_ok. rewrite handler_sockets. split; [|split].
  - destruct e; auto; [now apply wf_set | now apply wf_delete].
  - destruct e; auto.
    + intros k s Hin. apply In_set_inv in Hin as [Hin | Hin]; [|eauto].
      injection Hin as -> ->. cbn [admissible] in Hadm. tauto.
    + intros k s Hin. apply In_delete in Hin as [Hin _]. eauto.
  - destruct e; cbn [admissible] in Hadm;
      try (rewrite handler_read_only by reflexivity; intros k t Hin;
           split; [|now apply (Hold k)]; try apply In_keys_set;
           now apply (Htab k t)).
    + (* tablet-register *)
      cbn [handler].
      destruct (fields data) as [o|] eqn:Hdata;
        [|rewrite tablet_register_throws_world by assumption;
          intros k t Hin;
          split; [now apply (Htab k t) | now apply (Hold k)]].
      unfold exec. rewrite (tablet_register_run _ _ _ _ _ Hdata).
      cbn [fst snd activeTablets]. intros k t Hin.
      apply In_set_inv in Hin as [Hin | Hin].
      * injection Hin as -> ->. split; [now apply get_Some_key in Hadm|].
        cbn [registered id name lastSeen]. split; [|split; [|lia]].
        -- apply truthy_js_or, truthy_handle.
           apply get_In in Hadm. now apply Hsock in Hadm.
        -- apply truthy_js_or, truthy_default_name.
      * split; [now apply (Htab k t) | now apply (Hold k)].
    + (* tablet-status *)
      cbn [handler]. unfold exec.
      destruct (JsMap.get (socket_id socket) (activeTablets w)) as [t0|] eqn:Hget.
      * destruct (fields data) as [o|] eqn:Hdata;
          [|rewrite (tablet_status_throws _ data now _ _ Hdata Hget);
            cbn [fst snd]; intros k t Hin;
            split; [now apply (Htab k t) | now apply (Hold k)]].
        rewrite (tablet_status_bound _ data o now _ _ Hdata Hget).
        cbn [fst snd activeTablets]. intros k t Hin.
        apply In_set_inv in Hin as [Hin | Hin].
        -- injection Hin as -> ->. apply get_In in Hget.
           split; [now apply (Htab _ t0)|]. cbn [merged id name lastSeen].
           destruct (Hold _ _ Hget) as (? & ? & _). repeat split; auto; lia.
        -- split; [now apply (Htab k t) | now apply (Hold k)].
      * rewrite (tablet_status_unbound _ data now _ Hget). cbn [fst snd].
        intros k t Hin. split; [now apply (Htab k t) | now apply (Hold k)].
    + (* close *)
      cbn [handler]. rewrite closed_registry. intros k t Hin.
      apply In_delete in Hin as [Hin Hne]. cbn [fst] in Hne.
      split; [|now apply (Hold k)].
      rewrite keys_delete. apply filter_In. split; [now apply (Htab k t)|].
      destruct (String.eqb_spec k (socket_id socket)); [contradiction|].
      reflexivity.
    + (* sweep *)
      cbn [handler]. rewrite sweep_registry by assumption. intros k t Hin.
      apply filter_In in Hin as [Hin _].
      split; [now apply (Htab k t) | now apply (Hold k)].
Qed.

Lemma live_ok clock w : live clock w -> connections_ok clock w.
Proof.
  induction 1 as [clock|clock w e now Hlive IH Hadm Hclock].
  - split; [constructor|]. split; intros k x [].
  - apply step_connections_ok with (clock := clock); auto.
    apply reachable_ok. now apply live_reachable in Hlive.
Qed.

(** ** More on the map operations *)

Lemma set_absent {V} k (v : V) m :
  JsMap.get k m = None -> JsMap.set k v m = m ++ [(k, v)].
Proof.
  induction m as [|[k' v'] m IH]; cbn [JsMap.get JsMap.set app]; [reflexivity|].
  destruct (String.eqb k' k); [discriminate|]. intros H. now rewrite IH.
Qed.

Lemma delete_absent {V} k (m : JsMap.t V) :
  JsMap.get k m = None -> JsMap.delete k m = m.
Proof.
  unfold JsMap.delete.
  induction m as [|[k' v'] m IH]; cbn [JsMap.get filter fst]; [reflexivity|].
  destruct (String.eqb k' k); [discriminate|]. intros H. cbn [negb].
  now rewrite IH.
Qed.

Lemma key_get {V} k (m : JsMap.t V) :
  In k (JsMap.keys m) -> exists v, JsMap.get k m = Some v.
Proof.
  intros Hin. destruct (JsMap.get k m) as [v|] eqn:Hget; [now exists v|].
  apply get_None_not_key in Hget. contradiction.
Qed.

Lemma find_app_first {A} (f : A -> bool) l l' x :
  find f l = Some x -> find f (l ++ l') = Some x.
Proof.
  induction l as [|y l IH]; cbn [find app]; [discriminate|].
  destruct (f y); auto.
Qed.

Lemma find_exists {A} (f : A -> bool) l x :
  In x l -> f x = true -> exists y, find f l = Some y.
Proof.
  intros Hin Hf. destruct (find f l) as [y|] eqn:Hfind; [now exists y|].
  rewrite (find_none _ _ Hfind x Hin) in Hf. discriminate.
Qed.

Lemma strict_eq_JStr v s : strict_eq v (JStr s) = true <-> v = JStr s.
Proof.
  split.
  - destruct v; cbn [strict_eq]; try discriminate.
    intros H. apply String.eqb_eq in H. now subst.
  - intros ->. cbn [strict_eq]. apply String.eqb_refl.
Qed.

(** ** Connections and bindings *)

Lemma live_binding_open clock w :
  live clock w ->
  forall k t,
    JsMap.get k (activeTablets w) = Some t ->
    exists s, JsMap.get k (sockets w) = Some s /\ socket_id s = k /\ k <> "".
Proof.
  intros Hlive k t Hget. destruct (live_ok _ _ Hlive) as (Hwfs & Hsock & Htab).
  apply get_In in Hget. destruct (Htab k t Hget) as [Hkey _].
  destruct (key_get _ _ Hkey) as [s Hs]. exists s. split; [exact Hs|].
  apply get_In in Hs. now apply Hsock.
Qed.

(** X1.  In a live state every bound handle is the id of an open connection,
    so [POST /api/command/:tabletId] never answers "Socket no encontrado". *)
Theorem bound_handles_are_open_connections (clock : Z) (w : World) :
  live clock w ->
  (forall k t,
     JsMap.get k (activeTablets w) = Some t ->
     exists s, JsMap.get k (sockets w) = Some s /\ socket_id s = k)
  /\ forall tabletId body reqIp now,
       ~ In (Respond 404 false (BError "Socket no encontrado"))
            (effects (api_command tabletId body reqIp now) w).
Proof.
  intros Hlive. pose proof (live_binding_open _ _ Hlive) as Hopen. split.
  - intros k t Hget. destruct (Hopen k t Hget) as (s & ? & ? & _).
    now exists s.
  - intros tabletId body reqIp now. unfold effects, api_command.
    unfold_M.
    destruct (find _ (JsMap.entries (activeTablets w))) as [[k t]|] eqn:Hfind;
      cbn [fst snd].
    + apply find_some in Hfind as [Hin _].
      pose proof (reachable_ok _ (live_reachable _ _ Hlive)) as [Hwf _].
      destruct (Hopen k t (In_get _ _ _ Hwf Hin)) as (s & Hs & _ & Hne).
      rewrite (truthy_handle k Hne), Hs. cbn [snd app].
      intros [H | [H | [H | []]]]; discriminate H.
    + cbn [snd app]. intros [H | []]. discriminate H.
Qed.

Lemma two_tablets_live : live 299000 two_tablets.
Proof.
  unfold two_tablets, lobby_world.
  repeat (eapply live_step;
          [| cbn; first [reflexivity | split; [discriminate | reflexivity]]
           | ]);
    [apply (live_initial 0) | | | | | |]; lia.
Qed.

Lemma lobby_world_live : live 0 lobby_world.
Proof.
  unfold lobby_world.
  repeat (eapply live_step;
          [| cbn; first [reflexivity | split; [discriminate | reflexivity]]
           | ]);
    [apply (live_initial 0) | | |]; lia.
Qed.

(** An instance: the state with the lobby and the hall tablets. *)
Lemma bound_handles_are_open_connections_witness :
  live 299000 two_tablets
  /\ exists s, JsMap.get "s2MnOpQrStUvWx" (sockets two_tablets) = Some s
               /\ socket_id s = "s2MnOpQrStUvWx".
Proof.
  split; [exact two_tablets_live|].
  exact (proj1 (bound_handles_are_open_connections _ _ two_tablets_live)
           "s2MnOpQrStUvWx" _ eq_refl).
Defined.

(** ** Dispatch to a registered device *)

Lemma first_binding_bound w logicalId k t :
  JsMap.wf (activeTablets w) ->
  first_binding logicalId w = Some (k, t) ->
  JsMap.get k (activeTablets w) = Some t
  /\ strict_eq (id t) logicalId = true.
Proof.
  intros Hwf Hfirst. apply find_some in Hfirst as [Hin Hid].
  split; [now apply In_get | exact Hid].
Qed.

(** The connection that the REST route resolves a first binding to. *)
Lemma rest_target clock w tabletId k t :
  live clock w ->
  first_binding (JStr tabletId) w = Some (k, t) ->
  JsMap.get k (activeTablets w) = Some t
  /\ id t = JStr tabletId
  /\ truthy (JStr k) = true
  /\ exists s, JsMap.get k (sockets w) = Some s /\ socket_id s = k.
Proof.
  intros Hlive Hfirst.
  pose proof (reachable_ok _ (live_reachable _ _ Hlive)) as [Hwf _].
  destruct (first_binding_bound _ _ _ _ Hwf Hfirst) as [Hget Hid].
  destruct (live_binding_open clock w Hlive k t Hget) as (s & Hs & Hsid & Hne).
  split; [exact Hget|]. split; [now apply strict_eq_JStr|].
  split; [now apply truthy_handle|]. now exists s.
Qed.

(** The connection that the socket route resolves a [tabletId] to. *)
Lemma socket_target clock w (logicalId : JsVal) k0 t0 :
  live clock w ->
  JsMap.get k0 (activeTablets w) = Some t0 ->
  strict_eq (id t0) logicalId = true ->
  exists target t,
    find (fun s => strict_eq
                     (optional_id (JsMap.get (socket_id s) (activeTablets w)))
                     logicalId)
         (JsMap.values (sockets w)) = Some target
    /\ JsMap.get (socket_id target) (activeTablets w) = Some t
    /\ strict_eq (id t) logicalId = true.
Proof.
  intros Hlive Hget0 Hid0.
  destruct (live_ok _ _ Hlive) as (_ & _ & Htab).
  destruct (live_binding_open _ _ Hlive k0 t0 Hget0) as (s0 & Hs0 & Hsid0 & _).
  assert (Hdef : logicalId <> JUndefined).
  { intros Hun. rewrite Hun in Hid0.
    destruct (Htab k0 t0 (get_In _ _ _ Hget0)) as (_ & Htruthy & _).
    destruct (id t0); cbn in Hid0, Htruthy; discriminate. }
  set (matches := fun s : Socket =>
         strict_eq (optional_id (JsMap.get (socket_id s) (activeTablets w)))
                   logicalId).
  assert (Hs0in : In s0 (JsMap.values (sockets w))).
  { apply get_In in Hs0. unfold JsMap.values.
    change s0 with (snd (k0, s0)). now apply in_map. }
  assert (Hs0m : matches s0 = true).
  { unfold matches. rewrite Hsid0, Hget0. exact Hid0. }
  destruct (find_exists matches _ s0 Hs0in Hs0m) as [target Hfind].
  pose proof (find_some _ _ Hfind) as [_ Hm]. unfold matches in Hm.
  destruct (JsMap.get (socket_id target) (activeTablets w)) as [t|] eqn:Hget.
  - exists target, t. auto.
  - cbn [optional_id] in Hm. exfalso. apply Hdef.
    destruct logicalId; cbn in Hm; try discriminate. reflexivity.
Qed.





(** X4.  In a live state, when exactly one handle is bound to a record with
    [id] [tabletId], the socket route and the REST route send
    ['remote-command'] to that same connection. *)
Theorem dispatch_routes_agree_on_a_unique_id
        (clock : Z) (w : World) (tabletId : string) (k : string)
        (t : TabletInfo) :
  live clock w ->
  JsMap.get k (activeTablets w) = Some t ->
  id t = JStr tabletId ->
  (forall k' t', JsMap.get k' (activeTablets w) = Some t' ->
                 id t' = JStr tabletId -> k' = k) ->
  forall socket data body reqIp now,
    prop data "tabletId" = JStr tabletId ->
    In (Emit k "remote-command"
             (PRemoteCommand (prop data "command") (prop data "params")))
       (effects (send_command socket (JObj data) now) w)
    /\ In (Emit k "remote-command"
                (PRemoteCommand (prop body "command") (prop body "params")))
          (effects (api_command tabletId body reqIp now) w).
Proof.
  intros Hlive Hget Hid Huniq socket data body reqIp now Hdata.
  assert (Hm : strict_eq (id t) (JStr tabletId) = true)
    by now apply strict_eq_JStr.
  split.
  - destruct (socket_target _ _ _ _ _ Hlive Hget Hm)
      as (target & t' & Hfind & Hget' & Hid').
    apply strict_eq_JStr in Hid'. pose proof (Huniq _ _ Hget' Hid') as Hk.
    unfold effects, send_command. unfold_M. rewrite Hdata, Hfind, Hk.
    now left.
  - destruct (find_exists (fun e => strict_eq (id (snd e)) (JStr tabletId))
                (JsMap.entries (activeTablets w)) (k, t))
      as [[k' t'] Hfirst]; [now apply get_In | exact Hm |].
    destruct (rest_target _ _ _ _ _ Hlive Hfirst)
      as (Hget' & Hid' & Htruthy & s & Hs & Hsid).
    pose proof (Huniq _ _ Hget' Hid') as Hk.
    unfold effects, api_command. unfold_M. rewrite Hfirst. cbn [fst snd].
    rewrite Htruthy, Hs, Hsid, Hk. now left.
Qed.

Lemma two_tablets_registry :
  activeTablets two_tablets
  = [("s1AbCdEfGhIjKl",
      mkTablet (JStr "A") (JStr "Lobby") (JStr "10.0.0.5") online
               (JStr "http://a") 0 (JStr "00:00:00") (JObj []));
     ("s2MnOpQrStUvWx",
      mkTablet (JStr "B") (JStr "Tablet-s2MnOpQr") (JStr "10.0.0.6") online
               (JStr "") 299000 (JStr "00:04:59") (JObj []))].
Proof. vm_compute. reflexivity. Qed.

(** An instance: both routes reach the hall tablet for ["B"]. *)
Lemma dispatch_routes_agree_on_a_unique_id_witness :
  live 299000 two_tablets
  /\ In (Emit "s2MnOpQrStUvWx" "remote-command"
              (PRemoteCommand (JStr "reload") JUndefined))
        (effects (send_command dashboard
                    (JObj [("tabletId", JStr "B"); ("command", JStr "reload")])
                    300000)
                 two_tablets)
  /\ In (Emit "s2MnOpQrStUvWx" "remote-command"
              (PRemoteCommand (JStr "reload") JUndefined))
        (effects (api_command "B" [("command", JStr "reload")] JNull 300000)
                 two_tablets).
Proof.
  split; [exact two_tablets_live|].
  assert (Hget : JsMap.get "s2MnOpQrStUvWx" (activeTablets two_tablets)
                 = Some (mkTablet (JStr "B") (JStr "Tablet-s2MnOpQr")
                                  (JStr "10.0.0.6") online (JStr "") 299000
                                  (JStr "00:04:59") (JObj []))).
  { rewrite two_tablets_registry. reflexivity. }
  assert (Huniq : forall k' t',
             JsMap.get k' (activeTablets two_tablets) = Some t' ->
             id t' = JStr "B" -> k' = "s2MnOpQrStUvWx").
  { intros k' t'. rewrite two_tablets_registry. cbn [JsMap.get].
    destruct (String.eqb_spec "s1AbCdEfGhIjKl" k').
    - intros H Hid. injection H as <-. discriminate Hid.
    - destruct (String.eqb_spec "s2MnOpQrStUvWx" k'); [congruence|discriminate]. }
  exact (dispatch_routes_agree_on_a_unique_id
           299000 two_tablets "B" "s2MnOpQrStUvWx" _ two_tablets_live
           Hget eq_refl Huniq dashboard
           [("tabletId", JStr "B"); ("command", JStr "reload")]
           [("command", JStr "reload")] JNull 300000 eq_refl).
Defined.

(** ** Two connections with one logical id *)

(** X5.  When a connection that has no record yet registers, the record that
    a scan of [activeTablets] meets first for any [id] stays the same, also
    when the newcomer registers under that very [id]: the REST routes keep
    resolving the id to the earlier binding, and the newcomer is bound beside
    it. *)
Theorem earlier_binding_keeps_its_id
        (w : World) (logicalId : JsVal) (k : string) (t : TabletInfo)
        (socket : Socket) (data : JsObject) (now : Z) :
  first_binding logicalId w = Some (k, t) ->
  JsMap.get (socket_id socket) (activeTablets w) = None ->
  let w' := exec (tablet_register socket (JObj data) now) w in
  first_binding logicalId w' = Some (k, t)
  /\ JsMap.get (socket_id socket) (activeTablets w')
     = Some (registered socket data now)
  /\ k <> socket_id socket
  /\ JsMap.size (activeTablets w') = S (JsMap.size (activeTablets w)).
Proof.
  intros Hfirst Hfresh w'. subst w'. unfold exec.
  rewrite (tablet_register_run socket (JObj data) data now w eq_refl).
  cbn [fst snd]. unfold first_binding, JsMap.entries in *.
  cbn [activeTablets]. rewrite (set_absent _ _ _ Hfresh).
  split; [now apply find_app_first|]. split; [|split].
  - rewrite <- (set_absent _ _ _ Hfresh). apply get_set_same.
  - intros ->. apply find_some in Hfirst as [Hin _].
    apply get_None_not_key in Hfresh. apply Hfresh.
    change (socket_id socket) with (fst (socket_id socket, t)).
    now apply in_map.
  - unfold JsMap.size. rewrite length_app. cbn [List.length]. lia.
Qed.

(** An instance: the hall tablet's connection registers as ["A"] too; the
    lobby tablet keeps answering for ["A"]. *)
Lemma earlier_binding_keeps_its_id_witness :
  option_map fst (first_binding (JStr "A") lobby_world)
  = Some "s1AbCdEfGhIjKl"
  /\ JsMap.get (socket_id hall) (activeTablets lobby_world) = None
  /\ option_map fst
       (first_binding (JStr "A")
          (exec (tablet_register hall (JObj [("tabletId", JStr "A")]) 5)
                lobby_world))
     = Some "s1AbCdEfGhIjKl".
Proof.
  split; [reflexivity|]. split; [reflexivity|].
  rewrite (proj1 (earlier_binding_keeps_its_id
                    lobby_world (JStr "A") "s1AbCdEfGhIjKl" _ hall
                    [("tabletId", JStr "A")] 5 eq_refl eq_refl)).
  reflexivity.
Defined.

(** ** Lookup by id *)

(** X6.  [GET /api/tablet/:id] answers 200 with a record of [snapshot()]
    whose [id] is the path segment, or 404 when no record has it; it never
    changes the state.  Right after a connection registered with a non-empty
    [tabletId], the route answers 200 for that id. *)
Theorem lookup_by_id_finds_registered_devices (w : World) (x : string) :
  ((exists t,
      api_tablet x w = (Normal tt, w, [Respond 200 true (BTablet t)])
      /\ In t (snapshot w) /\ id t = JStr x)
   \/ (api_tablet x w
       = (Normal tt, w, [Respond 404 false (BError "Tablet no encontrada")])
       /\ no_active_binding (JStr x) w))
  /\ forall socket data now,
       prop data "tabletId" = JStr x -> x <> "" ->
       exists t,
         effects (api_tablet x)
                 (exec (tablet_register socket (JObj data) now) w)
         = [Respond 200 true (BTablet t)]
         /\ id t = JStr x.
Proof.
  assert (Hcases : forall w0,
    (exists t, find (fun t => strict_eq (id t) (JStr x))
                    (JsMap.values (activeTablets w0)) = Some t
               /\ In t (snapshot w0) /\ id t = JStr x)
    \/ (find (fun t => strict_eq (id t) (JStr x))
             (JsMap.values (activeTablets w0)) = None
        /\ no_active_binding (JStr x) w0)).
  { intros w0.
    destruct (find _ (JsMap.values (activeTablets w0))) as [t|] eqn:Hfind.
    - left. exists t. apply find_some in Hfind as [Hin Hid].
      split; [reflexivity|]. split; [exact Hin | now apply strict_eq_JStr].
    - right. split; [reflexivity|]. intros k t Hin.
      apply (find_none _ _ Hfind). unfold JsMap.values.
      change t with (snd (k, t)). now apply in_map. }
  split.
  - destruct (Hcases w) as [(t & Hfind & Hin & Hid) | (Hfind & Hnone)].
    + left. exists t. unfold api_tablet. unfold_M. rewrite Hfind. auto.
    + right. unfold api_tablet. unfold_M. rewrite Hfind. auto.
  - intros socket data now Hdata Hx.
    destruct (Hcases (exec (tablet_register socket (JObj data) now) w))
      as [(t & Hfind & _ & Hid) | (_ & Hnone)].
    + exists t. unfold effects, api_tablet. unfold_M. rewrite Hfind. auto.
    + exfalso.
      assert (Hin : In (socket_id socket, registered socket data now)
                       (activeTablets
                          (exec (tablet_register socket (JObj data) now) w))).
      { unfold exec.
        rewrite (tablet_register_run socket (JObj data) data now w eq_refl).
        cbn [fst snd activeTablets]. apply get_In, get_set_same. }
      apply Hnone in Hin. cbn [registered id] in Hin. rewrite Hdata in Hin.
      unfold js_or in Hin. rewrite (truthy_handle x Hx) in Hin.
      cbn [strict_eq] in Hin. rewrite String.eqb_refl in Hin. discriminate.
Qed.

(** ** A whole connection *)

(** X7.  When a connection that has no record registers and then closes,
    [activeTablets] is again what it was before the registration, whatever
    the payload; the close hands the record to the database as offline. *)
Theorem register_then_close_restores_registry
        (w : World) (socket : Socket) (data : JsObject) (t1 t2 : Z) :
  JsMap.get (socket_id socket) (activeTablets w) = None ->
  let w1 := exec (tablet_register socket (JObj data) t1) w in
  activeTablets (exec (closed socket t2) w1) = activeTablets w
  /\ persisted (effects (closed socket t2) w1)
     = [with_lastSeen t2 (with_status offline (registered socket data t1))].
Proof.
  intros Hfresh w1. split.
  - rewrite closed_registry. subst w1. unfold exec.
    rewrite (tablet_register_run socket (JObj data) data t1 w eq_refl).
    cbn [fst snd activeTablets].
    rewrite delete_set_same. now apply delete_absent.
  - unfold effects, closed. unfold_first_bind.
    set (w2 := mkWorld _ _).
    assert (Hget : JsMap.get (socket_id socket) (activeTablets w2)
                   = Some (registered socket data t1)).
    { subst w2 w1. unfold exec.
      rewrite (tablet_register_run socket (JObj data) data t1 w eq_refl).
      cbn [fst snd activeTablets]. apply get_set_same. }
    rewrite (disconnect_bound socket t2 w2 _ Hget). reflexivity.
Qed.

(** An instance: the hall tablet connects to the lobby state, registers and
    leaves. *)
Lemma register_then_close_restores_registry_witness :
  JsMap.get (socket_id hall) (activeTablets lobby_world) = None
  /\ activeTablets
       (exec (closed hall 9)
             (exec (tablet_register hall (JObj [("tabletId", JStr "B")]) 5)
                   lobby_world))
     = activeTablets lobby_world.
Proof.
  split; [reflexivity|].
  exact (proj1 (register_then_close_restores_registry
                  lobby_world hall [("tabletId", JStr "B")] 5 9 eq_refl)).
Defined.

(** ** Which events touch the registry *)

(** X8.  Only a registration, a close and the sweep change which handles are
    bound: after any other event the handles of [activeTablets] are the same,
    in the same order; and the events other than a status message leave every
    record as it was. *)
Theorem only_register_close_sweep_rebind (e : Event) (now : Z) (w : World) :
  rebinds e = false ->
  JsMap.keys (activeTablets (exec (handler e now) w))
  = JsMap.keys (activeTablets w)
  /\ (read_only e = true ->
      activeTablets (exec (handler e now) w) = activeTablets w).
Proof.
  intros Hnot. split; [|now apply handler_read_only].
  destruct e; try discriminate Hnot;
    try (now rewrite handler_read_only by reflexivity).
  cbn [handler]. unfold exec.
  destruct (JsMap.get (socket_id socket) (activeTablets w)) as [t|] eqn:Hget.
  - destruct (fields data) as [o|] eqn:Hdata.
    + rewrite (tablet_status_bound _ data o now _ _ Hdata Hget).
      cbn [fst snd activeTablets]. apply keys_set_present.
      eapply get_Some_key; eauto.
    + now rewrite (tablet_status_throws _ data now _ _ Hdata Hget).
  - now rewrite (tablet_status_unbound _ data now _ Hget).
Qed.

(** An instance: a status message of the hall tablet. *)
Lemma only_register_close_sweep_rebind_witness :
  rebinds (TabletStatus hall (JObj [("currentUrl", JStr "http://b")])) = false
  /\ JsMap.keys
       (activeTablets
          (exec (handler (TabletStatus hall
                            (JObj [("currentUrl", JStr "http://b")]))
                         300000) two_tablets))
     = JsMap.keys (activeTablets two_tablets).
Proof.
  split; [reflexivity|].
  exact (proj1 (only_register_close_sweep_rebind
                  (TabletStatus hall (JObj [("currentUrl", JStr "http://b")]))
                  300000 two_tablets eq_refl)).
Defined.

(** ** The tag of a command result *)

(** X9.  In a live state, ['command-executed'] with a payload other than
    [undefined] and [null] broadcasts one ['command-result'] from the sender,
    stamped with the instant and tagged with the [id] of the sender's record;
    the tag is [undefined] exactly when the sender has no record.  With no
    payload the handler throws on reading [command] and broadcasts nothing.
    Either way the state stays as it was. *)
Theorem command_result_is_tagged_with_the_sender
        (clock : Z) (w : World) (socket : Socket) (payload : JsVal) (now : Z) :
  live clock w ->
  match fields payload with
  | Some data =>
      exists tag,
        command_executed socket payload now w
        = (Normal tt, w,
           [Broadcast (socket_id socket) "command-result"
                      (PCommandResult tag (prop data "command")
                                      (prop data "success")
                                      (prop data "message") now)])
        /\ (forall t, JsMap.get (socket_id socket) (activeTablets w) = Some t ->
                      tag = id t)
        /\ (tag = JUndefined <->
            JsMap.get (socket_id socket) (activeTablets w) = None)
  | None =>
      command_executed socket payload now w
      = (Throw (TypeError payload "command"), w, [])
  end.
Proof.
  intros Hlive. destruct (live_ok _ _ Hlive) as (_ & _ & Htab).
  destruct (fields payload) as [data|] eqn:Hdata.
  - exists (optional_id (JsMap.get (socket_id socket) (activeTablets w))).
    split; [unfold command_executed; unfold_M; now rewrite Hdata|].
    destruct (JsMap.get (socket_id socket) (activeTablets w)) as [t|] eqn:Hget;
      cbn [optional_id].
    + split; [intros t' H; now injection H as <-|].
      split; [|discriminate]. intros Hun.
      destruct (Htab _ t (get_In _ _ _ Hget)) as (_ & Htruthy & _).
      rewrite Hun in Htruthy. discriminate.
    + split; [discriminate|]. split; reflexivity.
  - unfold command_executed. unfold_M. now rewrite Hdata.
Qed.

(** An instance: the hall tablet reports a reload. *)
Lemma command_result_is_tagged_with_the_sender_witness :
  live 299000 two_tablets
  /\ effects (command_executed hall (JObj [("command", JStr "reload")]) 300000)
             two_tablets
     = [Broadcast "s2MnOpQrStUvWx" "command-result"
                  (PCommandResult (JStr "B") (JStr "reload") JUndefined
                                  JUndefined 300000)].
Proof.
  split; [exact two_tablets_live|].
  destruct (command_result_is_tagged_with_the_sender
              299000 two_tablets hall (JObj [("command", JStr "reload")])
              300000 two_tablets_live) as (tag & Hrun & Htag & _).
  unfold effects. rewrite Hrun. rewrite (Htag _ eq_refl). reflexivity.
Defined.

(** ** More on the sweep *)

Lemma sweep_persisted now w :
  persisted (effects (sweep now) w)
  = map (with_status offline)
        (filter (stale (now - staleThreshold)) (snapshot w)).
Proof.
  rewrite sweep_effects. unfold snapshot, JsMap.values.
  induction (activeTablets w) as [|[k t] m IH]; [reflexivity|].
  cbn [flat_map map filter snd]. unfold persisted in *.
  rewrite flat_map_app, IH. unfold evict_effects. cbn [snd].
  destruct (stale (now - staleThreshold) t); reflexivity.
Qed.

Lemma sweep_run now w :
  JsMap.wf (activeTablets w) ->
  sweep now w
  = (Normal tt,
     mkWorld (sockets w)
             (filter (fun e => negb (stale (now - staleThreshold) (snd e)))
                     (activeTablets w)),
     flat_map (evict_effects (now - staleThreshold)) (activeTablets w)).
Proof.
  intros Hwf. pose proof (sweep_registry now w Hwf) as Hreg.
  unfold exec, sweep in *. unfold_M. unfold_M_in Hreg.
  rewrite sweep_loop_eq in *. cbn [fst snd activeTablets app] in *.
  now rewrite Hreg.
Qed.

Lemma count_stale c (m : JsMap.t TabletInfo) :
  (List.length (filter (stale c) (JsMap.values m))
   + List.length (filter (fun e => negb (stale c (snd e))) m))%nat
  = List.length m.
Proof.
  unfold JsMap.values.
  induction m as [|[k t] m IH]; [reflexivity|].
  cbn [map filter snd]. destruct (stale c t); cbn [negb List.length]; lia.
Qed.

(** X10.  A sweep hands to [db.updateTablet] exactly the records it evicts,
    in iteration order, each with [status] offline and every other field,
    [lastSeen] included, as it was; it writes nothing for a record it keeps.
    The number of rows written and the number of records left add up to the
    number of records before. *)
Theorem sweep_persists_exactly_the_evicted (now : Z) (w : World) :
  JsMap.wf (activeTablets w) ->
  persisted (effects (sweep now) w)
  = map (with_status offline)
        (filter (fun t => lastSeen t <? now - staleThreshold) (snapshot w))
  /\ (List.length (persisted (effects (sweep now) w))
      + JsMap.size (activeTablets (exec (sweep now) w)))%nat
     = JsMap.size (activeTablets w).
Proof.
  intros Hwf. split; [apply sweep_persisted|].
  rewrite sweep_persisted, length_map, sweep_registry by assumption.
  apply count_stale.
Qed.

(** An instance: of the lobby and the hall tablets, the sweep at 301 s
    writes the lobby tablet's row only. *)
Lemma sweep_persists_exactly_the_evicted_witness :
  JsMap.wf (activeTablets two_tablets)
  /\ persisted (effects (sweep 301000) two_tablets)
     = [mkTablet (JStr "A") (JStr "Lobby") (JStr "10.0.0.5") offline
                 (JStr "http://a") 0 (JStr "00:00:00") (JObj [])].
Proof.
  assert (Hwf : JsMap.wf (activeTablets two_tablets)).
  { rewrite two_tablets_registry.
    repeat constructor; simpl; intuition discriminate. }
  split; [exact Hwf|].
  rewrite (proj1 (sweep_persists_exactly_the_evicted 301000 two_tablets Hwf)).
  unfold snapshot. rewrite two_tablets_registry. reflexivity.
Defined.

Lemma idle_on_fresh c (l : list (string * TabletInfo)) :
  (forall e, In e l -> stale c (snd e) = false) ->
  filter (fun e => negb (stale c (snd e))) l = l
  /\ flat_map (evict_effects c) l = [].
Proof.
  induction l as [|e l IH]; intros Hfresh; [split; reflexivity|].
  cbn [filter flat_map]. unfold evict_effects at 1.
  rewrite (Hfresh e (or_introl eq_refl)). cbn [negb app].
  destruct IH as [IH1 IH2]; [intros e' He'; apply Hfresh; now right|].
  now rewrite IH1, IH2.
Qed.

(** X11.  After a sweep, a second sweep at the same instant or an earlier
    one does nothing: it evicts no record, writes no row and logs nothing. *)
Theorem second_sweep_is_idle (now later : Z) (w : World) :
  JsMap.wf (activeTablets w) ->
  later <= now ->
  sweep later (exec (sweep now) w) = (Normal tt, exec (sweep now) w, []).
Proof.
  intros Hwf Hlater. unfold exec. rewrite (sweep_run now w Hwf).
  cbn [fst snd]. rewrite sweep_run by (cbn [activeTablets]; now apply wf_filter).
  cbn [sockets activeTablets].
  destruct (idle_on_fresh (later - staleThreshold)
              (filter (fun e => negb (stale (now - staleThreshold) (snd e)))
                      (activeTablets w))) as [Hkeep Hnone].
  - intros e He. apply filter_In in He as [_ He]. unfold stale in *.
    destruct (Z.ltb_spec (lastSeen (snd e)) (now - staleThreshold));
      [discriminate|].
    destruct (Z.ltb_spec (lastSeen (snd e)) (later - staleThreshold));
      [lia | reflexivity].
  - now rewrite Hkeep, Hnone.
Qed.

(** An instance: two sweeps at 301 s over the lobby and the hall tablets. *)
Lemma second_sweep_is_idle_witness :
  JsMap.wf (activeTablets two_tablets)
  /\ 301000 <= 301000
  /\ effects (sweep 301000) (exec (sweep 301000) two_tablets) = [].
Proof.
  assert (Hwf : JsMap.wf (activeTablets two_tablets)).
  { rewrite two_tablets_registry.
    repeat constructor; simpl; intuition discriminate. }
  assert (Hle : 301000 <= 301000) by lia.
  split; [exact Hwf|]. split; [exact Hle|].
  unfold effects.
  now rewrite (second_sweep_is_idle 301000 301000 two_tablets Hwf Hle).
Defined.

(** X12.  In a live state no record is dated after the instant of the last
    event; so right after a sweep at instant [now], every record left was
    last seen within the five minutes up to [now], and it is online. *)
Theorem survivors_were_seen_in_the_last_five_minutes
        (clock now : Z) (w : World) :
  live clock w ->
  clock <= now ->
  (forall k t, JsMap.get k (activeTablets w) = Some t -> lastSeen t <= clock)
  /\ forall k t,
       JsMap.get k (activeTablets (exec (sweep now) w)) = Some t ->
       now - staleThreshold <= lastSeen t <= now /\ status t = online.
Proof.
  intros Hlive Hclock. destruct (live_ok _ _ Hlive) as (_ & _ & Htab).
  pose proof (reachable_ok _ (live_reachable _ _ Hlive)) as [Hwf Hon].
  split.
  - intros k t Hget. now apply (Htab k t), get_In.
  - intros k t Hget. rewrite sweep_registry in Hget by assumption.
    apply get_In, filter_In in Hget as [Hin Hfresh]. cbn [snd] in Hfresh.
    unfold stale in Hfresh.
    destruct (Z.ltb_spec (lastSeen t) (now - staleThreshold)); [discriminate|].
    destruct (Htab k t Hin) as (_ & _ & _ & Hle).
    split; [lia | now apply (Hon k)].
Qed.

(** An instance: the sweep at 301 s over the lobby and the hall tablets
    leaves the hall tablet, last seen at 299 s. *)
Lemma survivors_were_seen_in_the_last_five_minutes_witness :
  live 299000 two_tablets
  /\ 299000 <= 301000
  /\ exists t,
       JsMap.get "s2MnOpQrStUvWx"
                 (activeTablets (exec (sweep 301000) two_tablets)) = Some t
       /\ 301000 - staleThreshold <= lastSeen t <= 301000.
Proof.
  assert (Hle : 299000 <= 301000) by lia.
  split; [exact two_tablets_live|]. split; [exact Hle|].
  assert (Hget : JsMap.get "s2MnOpQrStUvWx"
                   (activeTablets (exec (sweep 301000) two_tablets))
                 = Some (mkTablet (JStr "B") (JStr "Tablet-s2MnOpQr")
                                  (JStr "10.0.0.6") online (JStr "") 299000
                                  (JStr "00:04:59") (JObj []))).
  { vm_compute. reflexivity. }
  eexists. split; [exact Hget|].
  exact (proj1 (proj2 (survivors_were_seen_in_the_last_five_minutes
                         299000 301000 two_tablets two_tablets_live Hle)
                      _ _ Hget)).
Defined.

(** ** The rows handed to the database *)

Lemma closed_effects_bound socket now w t :
  JsMap.get (socket_id socket) (activeTablets w) = Some t ->
  effects (closed socket now) w
  = [ConsoleLog "📱 Tablet desconectada: ${tablet.name}" [name t];
     DbUpdateTablet (final_record now t);
     Broadcast (socket_id socket) "tablet-offline"
               (PTablet (final_record now t))].
Proof.
  intros Hget. unfold effects, closed. unfold_first_bind.
  set (w1 := mkWorld _ _).
  now rewrite (disconnect_bound socket now w1 t Hget).
Qed.

Lemma closed_effects_unbound socket now w :
  JsMap.get (socket_id socket) (activeTablets w) = None ->
  effects (closed socket now) w = [].
Proof.
  intros Hget. unfold effects, closed. unfold_first_bind.
  set (w1 := mkWorld _ _).
  now rewrite (disconnect_unbound socket now w1 Hget).
Qed.

Lemma read_only_persists_nothing e now w :
  read_only e = true -> persisted (effects (handler e now) w) = [].
Proof.
  destruct e; cbn [read_only handler]; intros H; try discriminate H;
    try reflexivity.
  - unfold effects, send_command. unfold_M.
    destruct (fields data); [|reflexivity].
    destruct (find _ _); reflexivity.
  - unfold effects, command_executed. unfold_M.
    destruct (fields data); reflexivity.
  - unfold effects, api_tablet. unfold_M. destruct (find _ _); reflexivity.
  - unfold effects, api_command. unfold_M.
    destruct (find _ _) as [[k t]|]; cbn [fst snd]; [|reflexivity].
    destruct (truthy (JStr k)); [|reflexivity].
    destruct (JsMap.get k (sockets w)); reflexivity.
Qed.

(** X13.  In a live run, every row that a handler hands to [db.updateTablet]
    has a truthy [id] and a truthy [name] (never [undefined], [null] or the
    empty string), and its [status] is offline exactly when the event is a
    close or the sweep. *)
Theorem persisted_rows_have_id_and_name
        (clock : Z) (w : World) (e : Event) (now : Z) (row : TabletInfo) :
  live clock w ->
  admissible w e ->
  In row (persisted (effects (handler e now) w)) ->
  truthy (id row) = true
  /\ truthy (name row) = true
  /\ (status row = offline <-> takes_offline e = true).
Proof.
  intros Hlive Hadm Hrow.
  destruct (live_ok _ _ Hlive) as (_ & Hsock & Htab).
  pose proof (reachable_ok _ (live_reachable _ _ Hlive)) as [Hwf Hon].
  assert (Hold : forall k t, In (k, t) (activeTablets w) ->
                   truthy (id t) = true /\ truthy (name t) = true
                   /\ status t = online).
  { intros k t Hin. destruct (Htab k t Hin) as (_ & ? & ? & _).
    repeat split; eauto. }
  destruct e;
    try (rewrite read_only_persists_nothing in Hrow by reflexivity;
         destruct Hrow).
  - (* tablet-register *)
    cbn [handler] in Hrow. unfold effects in Hrow.
    destruct (fields data) as [o|] eqn:Hdata;
      [|rewrite (tablet_register_throws _ _ _ _ Hdata) in Hrow;
        destruct Hrow].
    rewrite (tablet_register_run _ _ _ _ _ Hdata) in Hrow.
    destruct Hrow as [<- | []].
    cbn [admissible] in Hadm. cbn [registered id name status takes_offline].
    split; [|split; [|split; discriminate]].
    + apply truthy_js_or, truthy_handle.
      apply get_In in Hadm. now apply Hsock in Hadm.
    + apply truthy_js_or, truthy_default_name.
  - (* tablet-status *)
    cbn [handler] in Hrow. unfold effects in Hrow.
    destruct (JsMap.get (socket_id socket) (activeTablets w)) as [t|] eqn:Hget.
    + destruct (fields data) as [o|] eqn:Hdata;
        [|rewrite (tablet_status_throws _ data now _ _ Hdata Hget) in Hrow;
          destruct Hrow].
      rewrite (tablet_status_bound _ data o now _ _ Hdata Hget) in Hrow.
      destruct Hrow as [<- | []]. cbn [merged id name status takes_offline].
      destruct (Hold _ _ (get_In _ _ _ Hget)) as (? & ? & Hst).
      split; [assumption|]. split; [assumption|].
      rewrite Hst. split; discriminate.
    + rewrite (tablet_status_unbound _ data now _ Hget) in Hrow.
      destruct Hrow.
  - (* close *)
    cbn [handler] in Hrow.
    destruct (JsMap.get (socket_id socket) (activeTablets w)) as [t|] eqn:Hget.
    + rewrite (closed_effects_bound _ now _ _ Hget) in Hrow.
      destruct Hrow as [<- | []].
      destruct (Hold _ _ (get_In _ _ _ Hget)) as (? & ? & _).
      cbn. repeat split; assumption.
    + rewrite (closed_effects_unbound _ now _ Hget) in Hrow. destruct Hrow.
  - (* sweep *)
    cbn [handler] in Hrow. rewrite sweep_persisted in Hrow.
    apply in_map_iff in Hrow as [t [<- Hin]].
    apply filter_In in Hin as [Hin _]. unfold snapshot, JsMap.values in Hin.
    apply in_map_iff in Hin as [[k t'] [Ht Hin]]. cbn [snd] in Ht. subst t'.
    destruct (Hold _ _ Hin) as (? & ? & _). cbn. repeat split; assumption.
Qed.

(** An instance: the row of the hall tablet's registration. *)
Lemma persisted_rows_have_id_and_name_witness :
  live 0 lobby_world
  /\ admissible lobby_world (Connection hall)
  /\ admissible (exec (handler (Connection hall) 0) lobby_world)
                (TabletRegister hall (JObj []))
  /\ truthy (id (registered hall [] 3)) = true.
Proof.
  assert (Hadm1 : admissible lobby_world (Connection hall)).
  { split; [discriminate | reflexivity]. }
  assert (Hadm2 : admissible (exec (handler (Connection hall) 0) lobby_world)
                             (TabletRegister hall (JObj []))) by reflexivity.
  assert (Hle : 0 <= 0) by lia.
  split; [exact lobby_world_live|]. split; [exact Hadm1|].
  split; [exact Hadm2|].
  exact (proj1 (persisted_rows_have_id_and_name
                  0 (exec (handler (Connection hall) 0) lobby_world)
                  (TabletRegister hall (JObj [])) 3 (registered hall [] 3)
                  (live_step 0 lobby_world (Connection hall) 0
                             lobby_world_live Hadm1 Hle)
                  Hadm2 (or_introl eq_refl))).
Defined.

(** ** The other methods of [Database] *)

Import DatabaseMethods.

Lemma releases_app h1 h2 : releases (h1 ++ h2) = (releases h1 + releases h2)%nat.
Proof. unfold releases. now rewrite filter_app, length_app. Qed.

Lemma queries_app h1 h2 : queries (h1 ++ h2) = queries h1 ++ queries h2.
Proof. unfold queries. apply flat_map_app. Qed.

Lemma calls_app h1 h2 : calls (h1 ++ h2) = calls h1 ++ calls h2.
Proof. unfold calls. apply flat_map_app. Qed.

Lemma errors_app h1 h2 : errors (h1 ++ h2) = errors h1 ++ errors h2.
Proof. unfold errors. apply flat_map_app. Qed.

Lemma asked_reads statements :
  releases (asked statements) = 0%nat
  /\ queries (asked statements) = statements
  /\ calls (asked statements) = []
  /\ errors (asked statements) = [].
Proof.
  unfold asked, releases, queries, calls, errors.
  induction statements as [|s l (IH1 & IH2 & IH3 & IH4)];
    [repeat split|].
  cbn [map filter flat_map app]. rewrite IH1, IH2, IH3, IH4. repeat split.
Qed.

Lemma asked_snoc l s : asked (l ++ [s]) = asked l ++ [Asked (ClientQuery s)].
Proof. unfold asked. now rewrite map_app. Qed.

(** How a run of [client.query] statements ends: all were accepted and
    sent, or the run stopped at the first one that was rejected. *)
Lemma client_queries_run statements : forall (env : Env) h,
  (client_queries statements env h
   = (Database.Fulfilled tt, h ++ asked statements)
   /\ forall k s, nth_error statements k = Some s ->
        exists r, env (h ++ asked (firstn k statements)) (ClientQuery s)
                  = Database.Fulfilled r)
  \/ exists n s e,
       nth_error statements n = Some s
       /\ env (h ++ asked (firstn n statements)) (ClientQuery s)
          = Database.Rejected e
       /\ (forall k s', (k < n)%nat -> nth_error statements k = Some s' ->
             exists r, env (h ++ asked (firstn k statements)) (ClientQuery s')
                       = Database.Fulfilled r)
       /\ client_queries statements env h
          = (Database.Rejected e, h ++ asked (firstn (S n) statements)).
Proof.
  induction statements as [|s l IH]; intros env h.
  - left. split; [cbn; now rewrite app_nil_r|].
    intros [|k] s' Hnth; discriminate Hnth.
  - cbn [client_queries]. unfold bind, ask. cbn beta.
    destruct (env h (ClientQuery s)) as [rows|e] eqn:Hask.
    + destruct (IH env (h ++ [Asked (ClientQuery s)]))
        as [(Hall & Hacc) | (n & s' & e & Hnth & Hrej & Hacc & Hrun)].
      * left. split.
        -- rewrite Hall. cbn [asked map]. now rewrite <- app_assoc.
        -- intros [|k] s' Hnth.
           ++ injection Hnth as <-. cbn [firstn asked map].
              rewrite app_nil_r. now exists rows.
           ++ cbn [nth_error] in Hnth. destruct (Hacc k s' Hnth) as [r Hr].
              exists r. cbn [firstn asked map].
              rewrite <- app_assoc in Hr. exact Hr.
      * right. exists (S n), s', e. split; [exact Hnth|].
        cbn [firstn asked map]. rewrite <- app_assoc in Hrej, Hrun.
        split; [exact Hrej|]. split; [|exact Hrun].
        intros [|k] s'' Hk Hnth'.
        -- injection Hnth' as <-. cbn [firstn asked map].
           rewrite app_nil_r. now exists rows.
        -- cbn [nth_error] in Hnth'.
           destruct (Hacc k s'' ltac:(lia) Hnth') as [r Hr].
           exists r. cbn [firstn asked map].
           rewrite <- app_assoc in Hr. exact Hr.
    + right. exists 0%nat, s, e. split; [reflexivity|].
      cbn [firstn asked map]. rewrite app_nil_r. split; [exact Hask|].
      split; [intros k s' Hk; lia | reflexivity].
Qed.

Lemma initTables_run (env : Env) h :
  (initTables env h
   = (Database.Fulfilled tt,
      h ++ asked schema
        ++ [Logged "✅ Tablas PostgreSQL inicializadas correctamente" []])
   /\ forall k s, nth_error schema k = Some s ->
        exists r, env (h ++ asked (firstn k schema)) (ClientQuery s)
                  = Database.Fulfilled r)
  \/ exists n s e,
       nth_error schema n = Some s
       /\ env (h ++ asked (firstn n schema)) (ClientQuery s)
          = Database.Rejected e
       /\ (forall k s', (k < n)%nat -> nth_error schema k = Some s' ->
             exists r, env (h ++ asked (firstn k schema)) (ClientQuery s')
                       = Database.Fulfilled r)
       /\ initTables env h
          = (Database.Fulfilled tt,
             h ++ asked (firstn (S n) schema)
               ++ [Errored ["❌ Error creando tablas:"; Database.message e]]).
Proof.
  assert (Hbody : initTables env h
                  = match client_queries schema env h with
                    | (Database.Fulfilled _, h1) =>
                        (Database.Fulfilled tt,
                         h1 ++ [Logged
                                  "✅ Tablas PostgreSQL inicializadas correctamente"
                                  []])
                    | (Database.Rejected e, h1) =>
                        (Database.Fulfilled tt,
                         h1 ++ [Errored ["❌ Error creando tablas:";
                                         Database.message e]])
                    end).
  { unfold initTables, try_catch, bind, tell.
    destruct (client_queries schema env h) as [[[]|e] h1]; reflexivity. }
  rewrite Hbody.
  destruct (client_queries_run schema env h)
    as [(Hall & Hacc) | (n & s & e & Hnth & Hrej & Hacc & Hrun)].
  - left. rewrite Hall. split; [now rewrite <- app_assoc | exact Hacc].
  - right. exists n, s, e. split; [exact Hnth|]. split; [exact Hrej|].
    split; [exact Hacc|]. rewrite Hrun. now rewrite <- app_assoc.
Qed.

(** X14.  [initTables] never rejects.  It sends the nine statements of the
    schema in the order of the source, [tablets] first, each after the one
    before was accepted, and stops at the first one that is rejected.  When
    all nine are accepted, its steps are the nine statements and the success
    line.  When the statement at place [n] is the first to be rejected, its
    steps are the statements up to and including that one and one error line
    with the failure's message: nothing after it is sent and success is not
    logged. *)
Theorem initTables_stops_at_the_first_failure (env : Env) (h : list Step) :
  List.length schema = 9%nat
  /\ hd_error schema = Some (CreateTable "tablets")
  /\
  (((forall k s, nth_error schema k = Some s ->
      exists r, env (h ++ asked (firstn k schema)) (ClientQuery s)
                = Database.Fulfilled r)
   /\ initTables env h
      = (Database.Fulfilled tt,
         h ++ asked schema
           ++ [Logged "✅ Tablas PostgreSQL inicializadas correctamente" []]))
  \/ (exists n s e,
        nth_error schema n = Some s
        /\ (forall k s', (k < n)%nat -> nth_error schema k = Some s' ->
              exists r, env (h ++ asked (firstn k schema)) (ClientQuery s')
                        = Database.Fulfilled r)
        /\ env (h ++ asked (firstn n schema)) (ClientQuery s)
           = Database.Rejected e
        /\ initTables env h
           = (Database.Fulfilled tt,
              h ++ asked (firstn (S n) schema)
                ++ [Errored ["❌ Error creando tablas:"; Database.message e]])
        /\ queries (asked (firstn (S n) schema)
                      ++ [Errored ["❌ Error creando tablas:";
                                   Database.message e]])
           = firstn (S n) schema
        /\ (n < 9)%nat)).
Proof.
  split; [reflexivity|]. split; [reflexivity|].
  destruct (initTables_run env h)
    as [(Hrun & Hacc) | (n & s & e & Hnth & Hrej & Hacc & Hrun)].
  - left. split; [exact Hacc | exact Hrun].
  - right. exists n, s, e. split; [exact Hnth|]. split; [exact Hacc|].
    split; [exact Hrej|]. split; [exact Hrun|]. split.
    + rewrite queries_app.
      destruct (asked_reads (firstn (S n) schema)) as (_ & -> & _ & _).
      apply app_nil_r.
    + change 9%nat with (List.length schema). apply nth_error_Some.
      rewrite Hnth. discriminate.
Qed.

Lemma initTables_total (env : Env) h :
  exists t,
    initTables env h = (Database.Fulfilled tt, h ++ t)
    /\ releases t = 0%nat /\ calls t = [].
Proof.
  destruct (initTables_run env h)
    as [(Hrun & _) | (n & s & e & _ & _ & _ & Hrun)];
    eexists; (split; [exact Hrun|]);
    rewrite releases_app, calls_app.
  - destruct (asked_reads schema) as (-> & _ & -> & _). split; reflexivity.
  - destruct (asked_reads (firstn (S n) schema)) as (-> & _ & -> & _).
    split; reflexivity.
Qed.

(** X15.  [initConnection] never rejects.  When the pool hands out a client,
    the client is released exactly once, as the last step, whatever happens
    to the schema statements; when the pool refuses, no statement is sent,
    nothing is released, and the failure is reported with its message and
    the four lines of advice. *)
Theorem initConnection_always_releases_its_client (env : Env) (h : list Step) :
  exists h',
    initConnection env h = (Database.Fulfilled tt, h ++ h')
    /\ match env h PoolConnect with
       | Database.Fulfilled _ =>
           releases h' = 1%nat
           /\ exists t, h' = Asked PoolConnect :: t ++ [Released]
       | Database.Rejected e =>
           releases h' = 0%nat
           /\ queries h' = []
           /\ errors h'
              = [["❌ Error conectando a PostgreSQL:"; Database.message e];
                 ["💡 Asegúrate de que:"];
                 ["   1. PostgreSQL esté ejecutándose"];
                 [String.append "   2. La base "
                    (String.append dquote
                       (String.append "kiosk" (String.append dquote " exista")))];
                 ["   3. Las credenciales sean correctas"]]
       end.
Proof.
  unfold initConnection, try_catch. unfold bind at 1. unfold ask at 1.
  destruct (env h PoolConnect) as [rows|e] eqn:Hconnect.
  - unfold bind at 1. unfold tell at 1. unfold bind at 1.
    destruct (initTables_total env
                ((h ++ [Asked PoolConnect])
                   ++ [Logged "✅ Conectado a PostgreSQL - Base: kiosk" []]))
      as (t & Hrun & Hrel & _).
    rewrite Hrun. unfold tell.
    exists (Asked PoolConnect
              :: (Logged "✅ Conectado a PostgreSQL - Base: kiosk" [] :: t)
              ++ [Released]).
    split.
    + f_equal. rewrite <- !app_assoc. reflexivity.
    + split; [|now eexists].
      change (Asked PoolConnect
                :: (Logged "✅ Conectado a PostgreSQL - Base: kiosk" [] :: t)
                ++ [Released])
        with ([Asked PoolConnect;
               Logged "✅ Conectado a PostgreSQL - Base: kiosk" []]
                ++ t ++ [Released]).
      rewrite !releases_app, Hrel. reflexivity.
  - unfold bind, tell. eexists. split.
    + f_equal. rewrite <- !app_assoc. reflexivity.
    + repeat split.
Qed.

(** X16.  [testConnection] never rejects and answers a boolean.  It answers
    [true] exactly when the pool hands out a client and the probe query
    returns a row.  The client is released when the probe query succeeds; when
    the pool hands out a client and the probe query fails, the method answers
    [false] and the client is never released. *)
Theorem testConnection_leaks_the_client_on_a_failed_probe
        (env : Env) (h : list Step) :
  exists b h',
    testConnection env h = (Database.Fulfilled b, h ++ h')
    /\ match env h PoolConnect with
       | Database.Rejected _ =>
           b = false /\ releases h' = 0%nat /\ queries h' = []
       | Database.Fulfilled _ =>
           match env (h ++ [Asked PoolConnect]) (ClientQuery SelectNow) with
           | Database.Rejected _ => b = false /\ releases h' = 0%nat
           | Database.Fulfilled [] => b = false /\ releases h' = 1%nat
           | Database.Fulfilled (_ :: _) => b = true /\ releases h' = 1%nat
           end
       end.
Proof.
  unfold testConnection, try_catch. unfold bind at 1. unfold ask at 1.
  destruct (env h PoolConnect) as [r|e] eqn:Hconnect.
  - unfold bind at 1. unfold ask at 1.
    destruct (env (h ++ [Asked PoolConnect]) (ClientQuery SelectNow))
      as [[|row rows]|e] eqn:Hprobe;
      unfold bind, tell, ret, throw; do 2 eexists;
      (split; [rewrite <- !app_assoc; reflexivity|]); split; reflexivity.
  - unfold bind, tell, ret. do 2 eexists.
    split; [rewrite <- !app_assoc; reflexivity|]. repeat split.
Qed.





(** X18.  When the caller's callback does not throw, [getAllTablets],
    [getTablet] and [getStats] call it exactly once and their promise is
    fulfilled; when the query fails, the callback receives the empty array,
    [null] and the empty object respectively. *)
Theorem callbacks_are_called_exactly_once (env : Env) (h : list Step) :
  callback_returns env ->
  (exists arg h',
     getAllTablets env h = (Database.Fulfilled tt, h ++ h')
     /\ calls h' = [arg]
     /\ forall e, env h (PoolQuery SelectAllTablets) = Database.Rejected e ->
                  arg = JArr [])
  /\ (forall tabletId,
        exists arg h',
          getTablet tabletId env h = (Database.Fulfilled tt, h ++ h')
          /\ calls h' = [arg]
          /\ (forall e, env h (PoolQuery (SelectTablet tabletId))
                        = Database.Rejected e -> arg = JNull)
          /\ (env h (PoolQuery (SelectTablet tabletId)) = Database.Fulfilled []
              -> arg = JNull))
  /\ (exists arg h',
        getStats env h = (Database.Fulfilled tt, h ++ h')
        /\ calls h' = [arg]
        /\ forall e, env h (PoolQuery SelectStats) = Database.Rejected e ->
                     arg = JObj []).
Proof.
  intros Hcb. split; [|split].
  - unfold getAllTablets, try_catch. unfold bind at 1. unfold ask at 1.
    destruct (env h (PoolQuery SelectAllTablets)) as [rows|e] eqn:Hask.
    + unfold bind, ask, ret.
      destruct (Hcb (h ++ [Asked (PoolQuery SelectAllTablets)])
                    (JArr (map JObj (map with_stats_default rows))))
        as [r ->].
      do 2 eexists. split; [rewrite <- app_assoc; reflexivity|].
      split; [reflexivity|]. discriminate.
    + unfold bind, ask, tell, ret.
      destruct (Hcb ((h ++ [Asked (PoolQuery SelectAllTablets)])
                       ++ [Errored ["❌ Error obteniendo tablets:";
                                    Database.message e]]) (JArr []))
        as [r ->].
      do 2 eexists. split; [rewrite <- !app_assoc; reflexivity|].
      split; reflexivity.
  - intros tabletId. unfold getTablet, try_catch. unfold bind at 1.
    unfold ask at 1.
    destruct (env h (PoolQuery (SelectTablet tabletId))) as [[|row rows]|e]
      eqn:Hask.
    + unfold bind, ask, ret.
      destruct (Hcb (h ++ [Asked (PoolQuery (SelectTablet tabletId))]) JNull)
        as [r ->].
      do 2 eexists. split; [rewrite <- app_assoc; reflexivity|].
      split; [reflexivity|]. split; [discriminate | reflexivity].
    + unfold bind, ask, ret.
      destruct (Hcb (h ++ [Asked (PoolQuery (SelectTablet tabletId))])
                    (JObj (with_stats_default row))) as [r ->].
      do 2 eexists. split; [rewrite <- app_assoc; reflexivity|].
      split; [reflexivity|]. split; discriminate.
    + unfold bind, ask, tell, ret.
      destruct (Hcb ((h ++ [Asked (PoolQuery (SelectTablet tabletId))])
                       ++ [Errored ["❌ Error obteniendo tablet:";
                                    Database.message e]]) JNull) as [r ->].
      do 2 eexists. split; [rewrite <- !app_assoc; reflexivity|].
      split; [reflexivity|]. split; [reflexivity | discriminate].
  - unfold getStats, try_catch. unfold bind at 1. unfold ask at 1.
    destruct (env h (PoolQuery SelectStats)) as [rows|e] eqn:Hask.
    + unfold bind, ask, ret.
      match goal with
      | |- context [env ?h' (Call ?a)] => destruct (Hcb h' a) as [r ->]
      end.
      do 2 eexists. split; [rewrite <- app_assoc; reflexivity|].
      split; [reflexivity|]. discriminate.
    + unfold bind, ask, tell, ret.
      match goal with
      | |- context [env ?h' (Call ?a)] => destruct (Hcb h' a) as [r ->]
      end.
      do 2 eexists. split; [rewrite <- !app_assoc; reflexivity|].
      split; reflexivity.
Qed.

(** An instance: surroundings in which everything succeeds. *)
Lemma callbacks_are_called_exactly_once_witness :
  callback_returns quiet_env
  /\ calls (snd (getAllTablets quiet_env [])) = [JArr []]
  /\ calls (snd (getTablet (JStr "A") quiet_env [])) = [JNull]
  /\ calls (snd (getStats quiet_env [])) = [JObj []].
Proof.
  assert (Hcb : callback_returns quiet_env).
  { intros h arg. now exists []. }
  split; [exact Hcb|].
  destruct (callbacks_are_called_exactly_once quiet_env [] Hcb)
    as ((a1 & h1 & _ & _ & _) & _ & _).
  repeat split.
Defined.

(** X19.  When the query of [getAllTablets] succeeds and the callback throws
    on the rows, the callback is called a second time, with the empty array,
    and the callback's own failure is logged as a failure to fetch the
    tablets.  The promise is fulfilled if the second call returns and
    rejected with the second exception if it throws again: a throwing
    callback is the one way the method rejects. *)
Theorem getAllTablets_calls_a_throwing_callback_twice
        (env : Env) (h : list Step) (rows : Rows) (e : Database.JsError) :
  env h (PoolQuery SelectAllTablets) = Database.Fulfilled rows ->
  env (h ++ [Asked (PoolQuery SelectAllTablets)])
      (Call (JArr (map JObj (map with_stats_default rows))))
  = Database.Rejected e ->
  exists outcome h',
    getAllTablets env h = (outcome, h ++ h')
    /\ calls h' = [JArr (map JObj (map with_stats_default rows)); JArr []]
    /\ errors h' = [["❌ Error obteniendo tablets:"; Database.message e]]
    /\ queries h' = [SelectAllTablets]
    /\ match env (h ++ [Asked (PoolQuery SelectAllTablets);
                        Asked (Call (JArr (map JObj
                                             (map with_stats_default rows))));
                        Errored ["❌ Error obteniendo tablets:";
                                 Database.message e]])
                 (Call (JArr [])) with
       | Database.Fulfilled _ => outcome = Database.Fulfilled tt
       | Database.Rejected e' => outcome = Database.Rejected e'
       end.
Proof.
  intros Hquery Hthrow. unfold getAllTablets, try_catch. unfold bind at 1.
  unfold ask at 1. rewrite Hquery. unfold bind at 1. unfold ask at 1.
  rewrite Hthrow. unfold bind, tell, ask, ret. rewrite <- !app_assoc.
  cbn [app].
  destruct (env _ (Call (JArr []))) as [r|e'];
    do 2 eexists; (split; [reflexivity|]); repeat split.
Qed.

(** An instance: a callback that fails on a non-empty list of tablets. *)
Lemma getAllTablets_calls_a_throwing_callback_twice_witness :
  throwing_env [] (PoolQuery SelectAllTablets)
  = Database.Fulfilled [[("id", JStr "A")]]
  /\ calls (snd (getAllTablets throwing_env []))
     = [JArr [JObj [("id", JStr "A"); ("stats", JObj [])]]; JArr []]
  /\ fst (getAllTablets throwing_env []) = Database.Fulfilled tt.
Proof.
  split; [reflexivity|].
  destruct (getAllTablets_calls_a_throwing_callback_twice
              throwing_env [] [[("id", JStr "A")]]
              (Database.mkError "tablets.forEach is not a function")
              eq_refl eq_refl)
    as (outcome & h' & Hrun & Hcalls & _ & _ & Hout).
  rewrite Hrun. cbn [fst snd app]. split; [exact Hcalls | exact Hout].
Defined.

Lemma columnMap_cases statsType :
  (In statsType ["url_change"; "restart"; "command"]
   /\ exists column,
        columnMap statsType = Some (Named column)
        /\ In (Named column) [Named "url_changes"; Named "restarts";
                              Named "commands_received"])
  \/ (~ In statsType ["url_change"; "restart"; "command"]
      /\ In statsType object_prototype_members
      /\ columnMap statsType = Some (Inherited statsType))
  \/ (~ In statsType ["url_change"; "restart"; "command"]
      /\ ~ In statsType object_prototype_members
      /\ columnMap statsType = None).
Proof.
  unfold columnMap.
  destruct (String.eqb_spec statsType "url_change") as [->|H1].
  { left. split; [cbn; tauto|]. eexists. split; [reflexivity | cbn; tauto]. }
  destruct (String.eqb_spec statsType "restart") as [->|H2].
  { left. split; [cbn; tauto|]. eexists. split; [reflexivity | cbn; tauto]. }
  destruct (String.eqb_spec statsType "command") as [->|H3].
  { left. split; [cbn; tauto|]. eexists. split; [reflexivity | cbn; tauto]. }
  assert (Hnot : ~ In statsType ["url_change"; "restart"; "command"]).
  { intros [H | [H | [H | []]]]; congruence. }
  destruct (existsb (String.eqb statsType) object_prototype_members)
    eqn:Hmember.
  - right. left. split; [exact Hnot|]. split; [|reflexivity].
    apply existsb_exists in Hmember as [x [Hx Heq]].
    apply String.eqb_eq in Heq. now subst.
  - right. right. split; [exact Hnot|]. split; [|reflexivity].
    intros Hin. apply not_true_iff_false in Hmember. apply Hmember.
    apply existsb_exists. exists statsType. split; [exact Hin|].
    apply String.eqb_refl.
Qed.

Lemma updateDailyStats_queries tabletId statsType increment now
      (env : Env) h :
  exists h',
    updateDailyStats tabletId statsType increment now env h
    = (Database.Fulfilled tt, h ++ h')
    /\ queries h'
       = InsertDailyStats tabletId (utc_day now)
         :: match env h (PoolQuery (InsertDailyStats tabletId (utc_day now))) with
            | Database.Rejected _ => []
            | Database.Fulfilled _ =>
                match columnMap statsType with
                | Some column =>
                    [UpdateDailyStats column (defaulted increment (JNum 1))
                                      tabletId (utc_day now)]
                | None => []
                end
            end.
Proof.
  unfold updateDailyStats, try_catch. unfold bind at 1. unfold ask at 1.
  destruct (env h (PoolQuery (InsertDailyStats tabletId (utc_day now))))
    as [r|e].
  - destruct (columnMap statsType) as [column|].
    + unfold bind, ask, ret, tell.
      destruct (env _ (PoolQuery (UpdateDailyStats _ _ _ _))) as [r'|e'];
        eexists; (split; [rewrite <- !app_assoc; reflexivity|]); reflexivity.
    + unfold ret. eexists. split; reflexivity.
  - unfold tell. eexists. split; [rewrite <- !app_assoc; reflexivity|].
    reflexivity.
Qed.

(** X20.  [updateDailyStats] never rejects.  It first creates the day's row
    for the tablet; if that fails it sends nothing else.  For the stat types
    ["url_change"], ["restart"] and ["command"] it then increments the
    columns [url_changes], [restarts] and [commands_received], by 1 when no
    increment is given, for the same tablet and UTC day.  For any other type
    that is not the name of a member of [Object.prototype] it sends no
    update.  The column of an update is never text chosen by the caller: it
    is one of the three columns or the text of an inherited member. *)
Theorem updateDailyStats_updates_known_columns_only
        (tabletId : JsVal) (statsType : string) (increment : JsVal) (now : Z)
        (env : Env) (h : list Step) :
  let row := InsertDailyStats tabletId (utc_day now) in
  let update column :=
    UpdateDailyStats column (defaulted increment (JNum 1)) tabletId
                     (utc_day now) in
  exists h',
    updateDailyStats tabletId statsType increment now env h
    = (Database.Fulfilled tt, h ++ h')
    /\ match env h (PoolQuery row) with
       | Database.Rejected _ => queries h' = [row]
       | Database.Fulfilled _ =>
           (statsType = "url_change" ->
            queries h' = [row; update (Named "url_changes")])
           /\ (statsType = "restart" ->
               queries h' = [row; update (Named "restarts")])
           /\ (statsType = "command" ->
               queries h' = [row; update (Named "commands_received")])
           /\ (~ In statsType ["url_change"; "restart"; "command"] ->
               ~ In statsType object_prototype_members ->
               queries h' = [row])
           /\ forall column, In (update column) (queries h') ->
                In column [Named "url_changes"; Named "restarts";
                           Named "commands_received"]
                \/ (column = Inherited statsType
                    /\ In statsType object_prototype_members)
       end.
Proof.
  intros row update.
  destruct (updateDailyStats_queries tabletId statsType increment now env h)
    as (h' & Hrun & Hq).
  exists h'. split; [exact Hrun|]. fold row in Hq.
  destruct (env h (PoolQuery row)) as [r|e]; [|exact Hq].
  split; [intros ->; exact Hq|]. split; [intros ->; exact Hq|].
  split; [intros ->; exact Hq|]. split.
  - intros Hunknown Hforeign.
    destruct (columnMap_cases statsType)
      as [(Hk & _) | [(_ & Hm & _) | (_ & _ & Hnone)]]; try contradiction.
    now rewrite Hnone in Hq.
  - intros column Hin. rewrite Hq in Hin.
    destruct Hin as [Hin | Hin]; [discriminate Hin|].
    destruct (columnMap_cases statsType)
      as [(_ & c & Hc & Hnamed) | [(_ & Hm & Hc) | (_ & _ & Hc)]];
      rewrite Hc in Hin.
    + destruct Hin as [Hin | []]. injection Hin as <-. now left.
    + destruct Hin as [Hin | []]. injection Hin as <-. right. now split.
    + destruct Hin.
Qed.

(** Settling a method whose requests are all in sight: every answer of the
    surroundings is taken apart, then the steps are read off. *)
Ltac settle_with Hcb :=
  unfold_async; cbn beta iota;
  repeat match goal with
         | |- context [match ?env ?h (Call ?a) with _ => _ end] =>
             let r := fresh "r" in
             destruct (Hcb h a) as [r ->]; cbn beta iota
         | |- context [match ?env ?h ?r with _ => _ end] =>
             destruct (env h r) as [[|? ?]|?]; cbn beta iota
         end;
  do 2 eexists; rewrite <- ?app_assoc; reflexivity.

(** X21.  No method of the class rejects its promise, whatever the pool and
    the client answer, as long as the caller's callback does not throw:
    every failure of a request is caught inside the method. *)
Theorem methods_never_reject (env : Env) :
  callback_returns env ->
  forall (i : Invocation) (h : list Step),
  exists v h', invoke i env h = (Database.Fulfilled v, h ++ h').
Proof.
  intros Hcb i h.
  destruct i as [ | | | id1 | id1 cmd ok resp | id1 lim | id1 lvl msg meta
                | | id1 statsType increment now | cutoff | | | ];
    cbn [invoke].
  - (* initConnection *)
    unfold initConnection, try_catch. unfold bind at 1 2. unfold ask at 1.
    destruct (env h PoolConnect) as [r|e].
    + unfold bind at 1. unfold tell at 1. unfold bind at 1.
      destruct (initTables_total env
                  ((h ++ [Asked PoolConnect])
                     ++ [Logged "✅ Conectado a PostgreSQL - Base: kiosk" []]))
        as (t & -> & _).
      unfold tell, ret. do 2 eexists. rewrite <- !app_assoc. reflexivity.
    + unfold bind, tell, ret. do 2 eexists. rewrite <- !app_assoc.
      reflexivity.
  - (* initTables *)
    unfold bind. destruct (initTables_total env h) as (t & -> & _).
    unfold ret. now do 2 eexists.
  - unfold getAllTablets. settle_with Hcb.
  - unfold getTablet. settle_with Hcb.
  - unfold updateCommandResult. settle_with Hcb.
  - unfold getLogs. settle_with Hcb.
  - unfold logActivity. settle_with Hcb.
  - unfold getStats. settle_with Hcb.
  - destruct (updateDailyStats_queries id1 statsType increment now env h)
      as (h' & Hrun & _).
    unfold bind. rewrite Hrun. unfold ret. now do 2 eexists.
  - unfold cleanOldData. settle_with Hcb.
  - unfold testConnection. settle_with Hcb.
  - unfold getDatabaseInfo. settle_with Hcb.
  - unfold close. settle_with Hcb.
Qed.

(** An instance: a lookup of a tablet in the quiet surroundings. *)
Lemma methods_never_reject_witness :
  callback_returns quiet_env
  /\ fst (invoke (GetTablet (JStr "A")) quiet_env []) = Database.Fulfilled JUndefined.
Proof.
  assert (Hcb : callback_returns quiet_env).
  { intros h arg. now exists []. }
  split; [exact Hcb|].
  destruct (methods_never_reject quiet_env Hcb (GetTablet (JStr "A")) [])
    as (v & h' & Hrun).
  reflexivity.
Defined.

(** X22.  [cleanOldData] never rejects.  It deletes from [command_logs],
    [activity_logs] and [daily_stats], in this order, with one cutoff (its
    UTC day for [daily_stats]), and stops at the first deletion that fails:
    the tables after it are left as they are, and success is logged only when
    all three deletions were accepted. *)
Theorem cleanOldData_stops_at_the_first_failure
        (thirtyDaysAgo : Z) (env : Env) (h : list Step) :
  let d1 := DeleteCommandLogs thirtyDaysAgo in
  let d2 := DeleteActivityLogs thirtyDaysAgo in
  let d3 := DeleteDailyStats (utc_day thirtyDaysAgo) in
  exists h',
    cleanOldData thirtyDaysAgo env h = (Database.Fulfilled tt, h ++ h')
    /\ match env h (PoolQuery d1) with
       | Database.Rejected e =>
           queries h' = [d1]
           /\ errors h' = [["❌ Error limpiando datos antiguos:";
                            Database.message e]]
       | Database.Fulfilled _ =>
           match env (h ++ [Asked (PoolQuery d1)]) (PoolQuery d2) with
           | Database.Rejected e =>
               queries h' = [d1; d2]
               /\ errors h' = [["❌ Error limpiando datos antiguos:";
                                Database.message e]]
           | Database.Fulfilled _ =>
               queries h' = [d1; d2; d3]
               /\ match env (h ++ [Asked (PoolQuery d1); Asked (PoolQuery d2)])
                            (PoolQuery d3) with
                  | Database.Rejected e =>
                      errors h' = [["❌ Error limpiando datos antiguos:";
                                    Database.message e]]
                  | Database.Fulfilled _ =>
                      errors h' = []
                      /\ In (Logged "🧹 Datos antiguos limpiados (PostgreSQL)"
                                    []) h'
                  end
           end
       end.
Proof.
  intros d1 d2 d3. unfold cleanOldData, try_catch. unfold bind at 1.
  unfold ask at 1. fold d1.
  destruct (env h (PoolQuery d1)) as [r1|e1].
  - unfold bind at 1. unfold ask at 1. fold d2.
    destruct (env (h ++ [Asked (PoolQuery d1)]) (PoolQuery d2)) as [r2|e2].
    + unfold bind at 1. unfold ask at 1. fold d3. rewrite <- app_assoc.
      cbn [app].
      destruct (env (h ++ [Asked (PoolQuery d1); Asked (PoolQuery d2)])
                    (PoolQuery d3)) as [r3|e3];
        unfold tell; eexists;
        (split; [rewrite <- !app_assoc; reflexivity|]);
        cbn [app]; repeat split.
      cbn. tauto.
    + unfold tell. eexists. split; [rewrite <- !app_assoc; reflexivity|].
      split; reflexivity.
  - unfold tell. eexists. split; [rewrite <- !app_assoc; reflexivity|].
    split; reflexivity.
Qed.
